(** * jeff_agents: the document converter helper and the Minueru parsing client

    A shallow embedding of [src/utils/doc_utils.py] and
    [src/utils/mineru_client.py].  Python [str] values are [string]s (byte
    strings; every literal the two files compare against is ASCII), Python
    exceptions are an inductive type with the class tests the handlers
    perform, and the file system, the network and the child process are
    explicit components of a world that the operations read and extend. *)

From Stdlib Require Import ZArith Ascii String List Bool Lia.
From stdpp Require Import base option list strings gmap.

Open Scope string_scope.
Open Scope Z_scope.

(** ** Python [str] *)

Module PyStr.

Definition chars (s : string) : list ascii := list_ascii_of_string s.
Definition str (l : list ascii) : string := string_of_list_ascii l.

(** [c.lower()] on one character: [A]-[Z] move to [a]-[z]. *)
Definition lower_char (c : ascii) : ascii :=
  let n := nat_of_ascii c in
  if (Nat.leb 65 n && Nat.leb n 90)%bool then ascii_of_nat (n + 32) else c.

(** [s.lower()]. *)
Definition lower (s : string) : string := str (map lower_char (chars s)).

(** [s.rfind(c)]: index of the last occurrence of [c], [-1] without one.
    [i] is the index of the head of [l]. *)
Fixpoint rfind_from (c : ascii) (l : list ascii) (i : Z) : Z :=
  match l with
  | [] => -1
  | x :: r =>
      let later := rfind_from c r (i + 1) in
      if 0 <=? later then later
      else if Ascii.eqb x c then i else -1
  end.

Definition rfind (c : ascii) (s : string) : Z := rfind_from c (chars s) 0.

(** [s[:i]] and [s[i:]] for [0 <= i]. *)
Definition upto (s : string) (i : Z) : string :=
  str (take (Z.to_nat i) (chars s)).

Definition from (s : string) (i : Z) : string :=
  str (drop (Z.to_nat i) (chars s)).

(** [s[i:j]] for [0 <= i]. *)
Definition slice (s : string) (i j : Z) : string := from (upto s j) i.

Definition len (s : string) : Z := Z.of_nat (String.length s).

(** [s.startswith(c)], [s.endswith(c)] for a one-character [c]. *)
Definition startswith (c : ascii) (s : string) : bool :=
  match s with
  | String x _ => Ascii.eqb x c
  | EmptyString => false
  end.

Definition endswith (c : ascii) (s : string) : bool :=
  match rev (chars s) with
  | x :: _ => Ascii.eqb x c
  | [] => false
  end.

(** The list without its leading run of [c]. *)
Fixpoint drop_leading (c : ascii) (l : list ascii) : list ascii :=
  match l with
  | x :: r => if Ascii.eqb x c then drop_leading c r else l
  | [] => []
  end.

(** [s.rstrip(c)]: the trailing run of [c] is removed. *)
Definition rstrip (c : ascii) (s : string) : string :=
  str (rev (drop_leading c (rev (chars s)))).

(** [s.split(c)]: the pieces between the occurrences of [c]. *)
Fixpoint split_chars (c : ascii) (l : list ascii) : list (list ascii) :=
  match l with
  | [] => [[]]
  | x :: r =>
      if Ascii.eqb x c then [] :: split_chars c r
      else match split_chars c r with
           | p :: ps => (x :: p) :: ps
           | [] => [[x]]
           end
  end.

Definition split (c : ascii) (s : string) : list string :=
  map str (split_chars c (chars s)).

(** [s.replace(old, new)]: every occurrence of [old], found left to right
    and not overlapping, becomes [new].  [skip] counts the characters of
    an occurrence just replaced that are still to be passed over. *)
Fixpoint replace_chars (old new : list ascii) (skip : nat) (l : list ascii)
  : list ascii :=
  match l with
  | [] => []
  | x :: r =>
      match skip with
      | S k => replace_chars old new k r
      | O =>
          if bool_decide (old `prefix_of` l)
          then new ++ replace_chars old new (pred (length old)) r
          else x :: replace_chars old new 0 r
      end
  end.

(** For a non-empty [old], which is the only use the sources make. *)
Definition replace (s old new : string) : string :=
  str (replace_chars (chars old) (chars new) 0 (chars s)).

(** A byte that continues a UTF-8 sequence ([10xxxxxx]); every other
    byte starts a character. *)
Definition is_continuation (c : ascii) : bool :=
  let n := nat_of_ascii c in (Nat.leb 128 n && Nat.ltb n 192)%bool.


(** The bytes of the first [n] characters of a well-formed UTF-8 text. *)
Fixpoint take_points (n : nat) (l : list ascii) : list ascii :=
  match l with
  | [] => []
  | x :: r =>
      if is_continuation x then x :: take_points n r
      else match n with
           | O => []
           | S k => x :: take_points k r
           end
  end.


Definition first_points (s : string) (n : nat) : string :=
  str (take_points n (chars s)).

(** [s[k:].startswith(old)]: an occurrence of [old] starts at index [k]
    of [s]. *)
Definition occurs_at (old s : string) (k : nat) : Prop :=
  chars old `prefix_of` drop k (chars s).

End PyStr.

(** ** [os.path] (posixpath) *)

Module OsPath.
Import PyStr.

(** The scan of [genericpath._splitext] over [p[sepIndex+1 : dotIndex]]:
    the extension is split off as soon as a character that is not a dot
    stands before the last dot. *)
Fixpoint finds_non_dot (l : list ascii) : bool :=
  match l with
  | [] => false
  | x :: r => if Ascii.eqb x "." then finds_non_dot r else true
  end.

(** [os.path.splitext(p)]. *)
Definition splitext (p : string) : string * string :=
  let sepIndex := rfind "/" p in
  let dotIndex := rfind "." p in
  if (sepIndex <? dotIndex)
     && finds_non_dot (chars (slice p (sepIndex + 1) dotIndex))
  then (upto p dotIndex, from p dotIndex)
  else (p, "").

(** [os.path.basename(p)]. *)
Definition basename (p : string) : string := from p (rfind "/" p + 1).

Definition all_sep (s : string) : bool :=
  forallb (fun c => Ascii.eqb c "/") (chars s).

(** [os.path.dirname(p)]. *)
Definition dirname (p : string) : string :=
  let head := upto p (rfind "/" p + 1) in
  if negb (String.eqb head "") && negb (all_sep head)
  then rstrip "/" head
  else head.

(** [os.path.join(a, b)]. *)
Definition join (a b : string) : string :=
  if startswith "/" b then b
  else if String.eqb a "" || endswith "/" a then a ++ b
  else a ++ "/" ++ b.

End OsPath.

(** ** [pathlib.Path] (the pure part the client reads) *)

Module PurePath.
Import PyStr.

(** The components kept by the path parser: empty pieces and [.] go. *)
Definition parts (p : string) : list string :=
  filter (fun x => x <> "" /\ x <> ".") (split "/" p).

(** The root of a path: one leading slash, or two when the path starts
    with exactly two. *)
Definition root (p : string) : string :=
  match p with
  | String "/" (String "/" (String "/" _)) => "/"
  | String "/" (String "/" _) => "//"
  | String "/" _ => "/"
  | _ => ""
  end.

Fixpoint join_parts (ps : list string) : string :=
  match ps with
  | [] => ""
  | [x] => x
  | x :: r => x ++ "/" ++ join_parts r
  end.

(** [Path(p)], kept as the string [str(Path(p))] that names the file to
    the operating system: the root, then the components. *)
Definition Path (p : string) : string :=
  match root p, parts p with
  | EmptyString, [] => "."
  | r, ps => r ++ join_parts ps
  end.

(** [Path(p).name]: the last component, [''] when there is none. *)
Definition name (p : string) : string := List.last (parts p) "".

(** [Path(p).suffix]. *)
Definition suffix (p : string) : string :=
  let nm := name p in
  let i := rfind "." nm in
  if (0 <? i) && (i <? len nm - 1) then from nm i else "".

End PurePath.

(** ** Exceptions *)

(** The exception classes that reach a handler of the two files.  All of
    them derive from [Exception]. *)
Inductive exn : Type :=
  | ValueError (msg : string)
  | FileNotFoundError (msg : string)
  | PermissionError (msg : string)
  | OSError (errno : Z)
  | CalledProcessError (returncode : Z) (stderr : string)
  | RequestsConnectTimeout
  | RequestsReadTimeout
  | RequestsConnectionError
  | RequestsMissingSchema
  | JSONDecodeError
  | OtherException (msg : string).

(** [isinstance(e, requests.exceptions.Timeout)]. *)
Definition is_Timeout (e : exn) : bool :=
  match e with
  | RequestsConnectTimeout | RequestsReadTimeout => true
  | _ => false
  end.

(** [isinstance(e, requests.exceptions.ConnectionError)]; a connect timeout
    derives from both [ConnectionError] and [Timeout]. *)
Definition is_ConnectionError (e : exn) : bool :=
  match e with
  | RequestsConnectTimeout | RequestsConnectionError => true
  | _ => false
  end.

Definition is_FileNotFoundError (e : exn) : bool :=
  match e with FileNotFoundError _ => true | _ => false end.

Definition is_JSONDecodeError (e : exn) : bool :=
  match e with JSONDecodeError => true | _ => false end.

Definition is_CalledProcessError (e : exn) : bool :=
  match e with CalledProcessError _ _ => true | _ => false end.

(** What a call comes to: a returned value or a raised exception. *)
Inductive outcome (A : Type) : Type :=
  | Returns (a : A)
  | Raises (e : exn).
Arguments Returns {A} a.
Arguments Raises {A} e.

(** ** [doc_utils.convert_doc_to_docx] *)

Module DocUtils.
Import PyStr.

(** How the child process ends: it exits with a status and its captured
    standard error, or it cannot be started at all. *)
Inductive run_result : Type :=
  | Exited (returncode : Z) (stderr : string)
  | NotStarted (e : exn).

(** The collaborators of one call: the process runner and the file
    system as it is once the command has exited. *)
Record env : Type := {
  run : list string -> run_result;
  exists_after : string -> bool
}.

(** The lines the function prints. *)
Inductive printed : Type :=
  | PrintConverted (generated_file : string)
  | PrintOutputMissing
  | PrintFailed (stderr : string).

(** [subprocess.run(command, check=True, ...)]. *)
Definition subprocess_run_checked (E : env) (command : list string)
  : outcome unit :=
  match run E command with
  | Exited code err =>
      if code =? 0 then Returns tt else Raises (CalledProcessError code err)
  | NotStarted e => Raises e
  end.

Definition output_docx_path (input_doc_path : string) : string :=
  fst (OsPath.splitext input_doc_path) ++ ".docx".

Definition command (input_doc_path : string) : list string :=
  [ "soffice"; "--headless"; "--convert-to"; "docx"; input_doc_path;
    "--outdir"; OsPath.dirname (output_docx_path input_doc_path) ].

Definition generated_file (input_doc_path : string) : string :=
  let out := output_docx_path input_doc_path in
  OsPath.join (OsPath.dirname out) (OsPath.basename out).

(** The result ([None] is Python's [None]) and what was printed. *)
Definition convert_doc_to_docx (E : env) (input_doc_path : string)
  : outcome (option string) * list printed :=
  match subprocess_run_checked E (command input_doc_path) with
  | Returns _ =>
      let g := generated_file input_doc_path in
      if exists_after E g
      then (Returns (Some g), [PrintConverted g])
      else (Returns (Some g), [PrintOutputMissing])
  | Raises e =>
      match e with
      | CalledProcessError _ err => (Returns None, [PrintFailed err])
      | _ => (Raises e, [])
      end
  end.

End DocUtils.

(** ** [mineru_client.MinueruClient] *)

#[local] Set Warnings "-register-all".

(** Python values a decoded JSON body is made of; [PyNone] is [None], which
    is also what [parse] returns on failure.  A float is kept as the
    literal that denotes it. *)
Inductive pyvalue : Type :=
  | PyNone
  | PyBool (b : bool)
  | PyInt (n : Z)
  | PyFloat (literal : string)
  | PyStr (s : string)
  | PyList (items : list pyvalue)
  | PyDict (items : list (string * pyvalue)).

Module Minueru.
Import PyStr.

(** *** The world of a call *)

(** What [os.stat] finds for a path: a regular file, which may refuse to
    be opened; something else that exists; or an error other than "no
    such file" ([ENAMETOOLONG], [EACCES], ...), which [Path.exists()] and
    [Path.is_file()] raise again.  A path for which [os.stat] reports
    that nothing is there has no entry. *)
Inductive node : Type :=
  | RegularFile (readable : bool)
  | Directory
  | Unstatable (errno : Z).

(** A file object made by [open]: [closed] is its [.closed] attribute and
    [close_calls] counts the calls of [.close()] on it. *)
Record file_obj : Type := {
  f_path : string;
  closed : bool;
  close_calls : nat
}.

(** One element of the [files] list:
    [('files', (file_path.name, open(file_path, 'rb'), mime_type))]; the
    file object is named by its index in the table of file objects. *)
Record upload_entry : Type := {
  field : string;
  filename : string;
  fileobj : nat;
  content_type : string
}.

Inductive http_method : Type := GET | POST.

Record request : Type := {
  method : http_method;
  url : string;
  req_files : list upload_entry;
  req_data : list (string * string);
  req_headers : list (string * string);
  req_timeout : Z
}.

(** The response object: [.status_code], [.text] and what [.json()]
    comes to. *)
Record response : Type := {
  status_code : Z;
  text : string;
  json : outcome pyvalue
}.

Inductive level : Type := DEBUG | INFO | WARNING | ERROR.

(** The messages of the module's logger, one constructor per format
    string, carrying the values the string interpolates. *)
Inductive message : Type :=
  | MsgParsing (n_files : nat)
  | MsgStatus (code : Z)
  | MsgParsed
  | MsgJsonFailed (e : exn)
  | MsgRawResponse (text500 : string)
  | MsgRequestFailed (code : Z)
  | MsgErrorText (text500 : string)
  | MsgTimeout (timeout : Z)
  | MsgConnectionFailed (base_url : string)
  | MsgFileError (e : exn)
  | MsgException (e : exn)
  | MsgConnectionTestFailed (e : exn)
  | MsgCloseFailed (e : exn).

(** What a call cannot change: the disk, the behaviour of the remote end,
    and what [.close()] raises, if anything, on a file object opened for
    a path.  A file object made by [open] is closed after [.close()] also
    when the call raises. *)
Record env : Type := {
  fs : gmap string node;
  network : request -> outcome response;
  close_error : string -> option exn
}.

(** What a call changes: the file objects made so far, the requests
    handed to the HTTP library, and the log. *)
Record state : Type := {
  file_objs : list file_obj;
  sent : list request;
  log : list (level * message)
}.

(** *** Computations: state passing with exceptions *)

Definition M (A : Type) : Type := state -> outcome A * state.

#[export] Instance M_ret : MRet M := fun A a s => (Returns a, s).
#[export] Instance M_bind : MBind M := fun A B k m s =>
  match m s with
  | (Returns a, s') => k a s'
  | (Raises e, s') => (Raises e, s')
  end.

Definition raise {A} (e : exn) : M A := fun s => (Raises e, s).

(** A call that reads the world without changing it. *)
Definition lift {A} (o : outcome A) : M A := fun s => (o, s).

Definition logger (l : level) (msg : message) : M unit := fun s =>
  (Returns tt,
   {| file_objs := file_objs s; sent := sent s; log := log s ++ [(l, msg)] |}).

(** [open(file_path, 'rb')]. *)
Definition py_open (E : env) (file_path : string) : M nat := fun s =>
  match fs E !! file_path with
  | Some (RegularFile true) =>
      (Returns (length (file_objs s)),
       {| file_objs := file_objs s
                       ++ [{| f_path := file_path; closed := false; close_calls := 0 |}];
          sent := sent s; log := log s |})
  | Some (RegularFile false) =>
      (Raises (PermissionError file_path), s)
  | Some Directory =>
      (Raises (OtherException ("IsADirectoryError: " ++ file_path)), s)
  | Some (Unstatable errno) => (Raises (OSError errno), s)
  | None => (Raises (FileNotFoundError file_path), s)
  end.

(** [file_obj.close()]. *)
Definition close_obj (f : file_obj) : file_obj :=
  {| f_path := f_path f; closed := true; close_calls := S (close_calls f) |}.

(** [requests.post(...)] and [requests.get(...)]: the request is handed
    to the library, which answers or raises. *)
Definition http (E : env) (r : request) : M response := fun s =>
  (network E r,
   {| file_objs := file_objs s; sent := sent s ++ [r]; log := log s |}).

(** *** The client *)

Definition DEFAULT_BASE_URL : string := "http://localhost:8008/file_parse".

Definition DEFAULT_PARAMS : list (string * string) :=
  [ ("return_middle_json", "false");
    ("return_model_output", "false");
    ("return_md", "true");
    ("return_images", "true");
    ("end_page_id", "99999");
    ("parse_method", "auto");
    ("start_page_id", "0");
    ("lang_list", "en");
    ("output_dir", "./output");
    ("server_url", "string");
    ("return_content_list", "false");
    ("backend", "pipeline");
    ("table_enable", "true");
    ("response_format_zip", "false");
    ("formula_enable", "true") ].

Record client : Type := {
  base_url : string;
  timeout : Z;
  headers : list (string * string)
}.

(** [MinueruClient(base_url, timeout)]; [base_url or DEFAULT_BASE_URL]
    takes the default for [None] and for the empty string. *)
Definition init (base_url : option string) (timeout : Z) : client :=
  {| base_url := match base_url with
                 | Some u => if String.eqb u "" then DEFAULT_BASE_URL else u
                 | None => DEFAULT_BASE_URL
                 end;
     timeout := timeout;
     headers := [("accept", "application/json")] |}.

Definition default_timeout : Z := 60 * 6.

Definition mime_map : gmap string string :=
  list_to_map
    [ (".pdf", "application/pdf");
      (".doc", "application/msword");
      (".docx", "application/vnd.openxmlformats-officedocument.wordprocessingml.document");
      (".xls", "application/vnd.ms-excel");
      (".xlsx", "application/vnd.openxmlformats-officedocument.spreadsheetml.sheet");
      (".ppt", "application/vnd.ms-powerpoint");
      (".pptx", "application/vnd.openxmlformats-officedocument.presentationml.presentation");
      (".txt", "text/plain");
      (".md", "text/markdown");
      (".html", "text/html");
      (".htm", "text/html") ].

(** The keys of [mime_map]. *)
Definition known_suffixes : list string :=
  [".pdf"; ".doc"; ".docx"; ".xls"; ".xlsx"; ".ppt"; ".pptx"; ".txt";
   ".md"; ".html"; ".htm"].

Definition _detect_mime_type (file_path : string) : string :=
  let suffix := lower (PurePath.suffix file_path) in
  default "application/octet-stream" (mime_map !! suffix).

(** The file object [open] makes for [file_path], and what it is after
    one call of [.close()]. *)
Definition fresh_obj (file_path : string) : file_obj :=
  {| f_path := file_path; closed := false; close_calls := 0 |}.

Definition closed_once (file_path : string) : file_obj :=
  {| f_path := file_path; closed := true; close_calls := 1 |}.

(** [Path(p).exists()] and [Path(p).is_file()]: an error of [os.stat]
    that does not mean "no such file" is raised again. *)
Definition path_exists (E : env) (p : string) : outcome bool :=
  match fs E !! p with
  | Some (Unstatable errno) => Raises (OSError errno)
  | Some _ => Returns true
  | None => Returns false
  end.

Definition is_file (E : env) (p : string) : outcome bool :=
  match fs E !! p with
  | Some (Unstatable errno) => Raises (OSError errno)
  | Some (RegularFile _) => Returns true
  | _ => Returns false
  end.

(** The [for] loop of [_prepare_files]; [files] is the list built so
    far. *)
Fixpoint prepare_loop (E : env) (local_files : list string)
    (files : list upload_entry) : M (list upload_entry) :=
  match local_files with
  | [] => mret files
  | file_path :: rest =>
      let file_path := PurePath.Path file_path in
      found ← lift (path_exists E file_path);
      if negb found
      then raise (FileNotFoundError ("文件不存在: " ++ file_path))
      else
        regular ← lift (is_file E file_path);
        if negb regular
        then raise (ValueError ("不是有效的文件: " ++ file_path))
        else
          let mime_type := _detect_mime_type file_path in
          f ← py_open E file_path;
          prepare_loop E rest
            (files ++ [{| field := "files";
                          filename := PurePath.name file_path;
                          fileobj := f;
                          content_type := mime_type |}])
  end.

(** The tuple the loop appends for [file_path] when [open] gave the file
    object [f]. *)
Definition entry_of (file_path : string) (f : nat) : upload_entry :=
  {| field := "files";
     filename := PurePath.name file_path;
     fileobj := f;
     content_type := _detect_mime_type file_path |}.

Definition _prepare_files (E : env) (local_files : list string)
  : M (list upload_entry) :=
  match local_files with
  | [] => raise (ValueError "文件列表不能为空")
  | _ => prepare_loop E local_files []
  end.

(** One turn of the loop of [_close_files]: [.close()] is called on the
    file object unless its [.closed] says it is closed already; an
    exception of the call is caught and logged as a warning. *)
Definition close_entry (E : env) (en : upload_entry) : M unit := fun s =>
  match file_objs s !! fileobj en with
  | Some f =>
      if closed f then (Returns tt, s)
      else
        let s' := {| file_objs := <[fileobj en := close_obj f]> (file_objs s);
                     sent := sent s; log := log s |} in
        match close_error E (f_path f) with
        | None => (Returns tt, s')
        | Some e => logger WARNING (MsgCloseFailed e) s'
        end
  | None => (Returns tt, s)
  end.

Fixpoint _close_files (E : env) (files : list upload_entry) : M unit :=
  match files with
  | [] => mret tt
  | en :: rest => _ ← close_entry E en; _close_files E rest
  end.

(** CPython's reference counting.  The file objects that a raising
    [_prepare_files] had opened are held by its local list alone.  The
    list dies with the frame when the handled exception is released at
    the end of the [except] clause, before the [finally] clause runs, and
    each file object is finalized: [close()] is called on it if it is
    still open, and an error of that call is not raised and not logged.
    [n] is the length of the table when [parse] was entered and [live]
    the file objects that the variable [files] of [parse] holds. *)
Definition finalized (n : nat) (live : list nat) (i : nat) (f : file_obj)
  : file_obj :=
  if bool_decide (n <= i /\ i ∉ live)%nat && negb (closed f)
  then close_obj f else f.

Definition finalize_unreferenced (n : nat) (live : list nat) : M unit :=
  fun s =>
    (Returns tt,
     {| file_objs := imap (finalized n live) (file_objs s);
        sent := sent s; log := log s |}).

Definition post_request (c : client) (files : list upload_entry) : request :=
  {| method := POST;
     url := base_url c;
     req_files := files;
     req_data := DEFAULT_PARAMS;
     req_headers := headers c;
     req_timeout := timeout c |}.

(** [response.text[:500]]: the first 500 characters. *)
Definition text500 (r : response) : string := first_points (text r) 500.

(** The inner [try] of [parse], entered on status 200: only a
    [JSONDecodeError] is handled here. *)
Definition decode_body (r : response) : M pyvalue :=
  match json r with
  | Returns result =>
      _ ← logger INFO MsgParsed;
      mret result
  | Raises e =>
      if is_JSONDecodeError e
      then _ ← logger ERROR (MsgJsonFailed e);
           _ ← logger DEBUG (MsgRawResponse (text500 r));
           mret PyNone
      else raise e
  end.

(** The body of the outer [try] once [files] has been assigned. *)
Definition upload (E : env) (c : client) (files : list upload_entry)
  : M pyvalue :=
  _ ← logger INFO (MsgParsing (length files));
  r ← http E (post_request c files);
  _ ← logger INFO (MsgStatus (status_code r));
  if status_code r =? 200 then decode_body r
  else _ ← logger ERROR (MsgRequestFailed (status_code r));
       _ ← logger ERROR (MsgErrorText (text500 r));
       mret PyNone.

(** The outer [try] block, with the value the local variable [files]
    has when the block is left: it is still [[]] when [_prepare_files]
    raised, since the assignment never took place. *)
Definition parse_try (E : env) (c : client) (local_files : list string)
  : state -> list upload_entry * outcome pyvalue * state := fun s =>
  match _prepare_files E local_files s with
  | (Returns files, s1) =>
      let '(r, s2) := upload E c files s1 in (files, r, s2)
  | (Raises e, s1) => ([], Raises e, s1)
  end.

(** The message of the [except] clause that handles [e]. *)
Definition except_message (c : client) (e : exn) : message :=
  if is_Timeout e then MsgTimeout (timeout c)
  else if is_ConnectionError e then MsgConnectionFailed (base_url c)
  else if is_FileNotFoundError e then MsgFileError e
  else MsgException e.

(** The state after one more call of the logger. *)
Definition logged (l : level) (msg : message) (s : state) : state :=
  {| file_objs := file_objs s; sent := sent s; log := log s ++ [(l, msg)] |}.

(** The [except] clauses of [parse], tried in order. *)
Definition parse_except (c : client) (e : exn) : M pyvalue :=
  if is_Timeout e then
    _ ← logger ERROR (MsgTimeout (timeout c)); mret PyNone
  else if is_ConnectionError e then
    _ ← logger ERROR (MsgConnectionFailed (base_url c)); mret PyNone
  else if is_FileNotFoundError e then
    _ ← logger ERROR (MsgFileError e); mret PyNone
  else
    _ ← logger ERROR (MsgException e); mret PyNone.

Definition parse (E : env) (c : client) (local_files : list string)
  : M pyvalue := fun s =>
  let '(files, r, s1) := parse_try E c local_files s in
  let '(res, s2) :=
    match r with
    | Returns v => (Returns v, s1)
    | Raises e => parse_except c e s1
    end in
  let '(_, s2') :=
    finalize_unreferenced (length (file_objs s)) (map fileobj files) s2 in
  (* finally *)
  let '(_, s3) := _close_files E files s2' in
  (res, s3).

Definition parse_single (E : env) (c : client) (file_path : string)
  : M pyvalue :=
  parse E c [file_path].

Definition connection_request (c : client) : request :=
  {| method := GET;
     url := replace (base_url c) "/file_parse" "";
     req_files := [];
     req_data := [];
     req_headers := [];
     req_timeout := 5 |}.

Definition test_connection (E : env) (c : client) : M bool := fun s =>
  match http E (connection_request c) s with
  | (Returns r, s1) => (Returns (status_code r =? 200), s1)
  | (Raises e, s1) =>
      let '(_, s2) := logger WARNING (MsgConnectionTestFailed e) s1 in
      (Returns false, s2)
  end.

(** A path that [_prepare_files] can open: it names a regular file that
    [open] does not refuse. *)
Definition openable (E : env) (p : string) : Prop :=
  fs E !! PurePath.Path p = Some (RegularFile true).

(** The list [files] that [_prepare_files] builds for [paths] when the
    first file object it makes gets the index [n]. *)
Definition entries_from (n : nat) (paths : list string) : list upload_entry :=
  imap (fun i p => entry_of p (n + i)) (map PurePath.Path paths).

(** A path for which [os.stat] finds no file: nothing is there, or the
    call fails. *)
Definition not_seen (E : env) (p : string) : Prop :=
  match fs E !! PurePath.Path p with
  | None | Some (Unstatable _) => True
  | Some _ => False
  end.

(** The warning that [_close_files] logs when it closes the file object
    of a path, and the warnings for the file objects of a list of paths
    closed in order. *)
Definition close_warning (E : env) (file_path : string)
  : list (level * message) :=
  match close_error E file_path with
  | Some e => [(WARNING, MsgCloseFailed e)]
  | None => []
  end.

Definition close_warnings (E : env) (paths : list string)
  : list (level * message) :=
  flat_map (fun p => close_warning E (PurePath.Path p)) paths.

(** What [_close_files] does to one file object: an open object named in
    the list is closed, every other one is kept. *)
Definition closed_by (files : list upload_entry) (i : nat) (f : file_obj)
  : file_obj :=
  if bool_decide (i ∈ map fileobj files) && negb (closed f)
  then close_obj f else f.

End Minueru.

(** ** Concrete worlds used to run the operations *)

Module Worlds.
Import Minueru.

Definition s0 : state := {| file_objs := []; sent := []; log := [] |}.

Definition ok_response (v : pyvalue) : response :=
  {| status_code := 200; text := "{}"; json := Returns v |}.

Definition not_found_response : response :=
  {| status_code := 404; text := "Not Found";
     json := Raises JSONDecodeError |}.

(** A disk holding [a.pdf] only. *)
Definition disk : gmap string node := {[ "a.pdf" := RegularFile true ]}.

Definition never_fails : string -> option exn := fun _ => None.

Definition E_ok : env :=
  {| fs := disk; network := fun _ => Returns (ok_response (PyDict []));
     close_error := never_fails |}.

Definition E_404 : env :=
  {| fs := disk; network := fun _ => Returns not_found_response;
     close_error := never_fails |}.

Definition E_down : env :=
  {| fs := disk; network := fun _ => Raises RequestsConnectionError;
     close_error := never_fails |}.

Definition local_client : client := init None default_timeout.

(** A disk with two documents, a directory, a file that cannot be read
    and a name that [os.stat] refuses as too long. *)
Definition office : gmap string node :=
  {[ "a.pdf" := RegularFile true;
     "notes/b.DOCX" := RegularFile true;
     "notes" := Directory;
     "secret.pdf" := RegularFile false;
     "toolong.pdf" := Unstatable 36 ]}.



Definition long_body : string :=
  "Internal Server Error: the parsing backend could not be reached".

Definition E_office_500 : env :=
  {| fs := office;
     network := fun _ => Returns {| status_code := 500; text := long_body;
                                    json := Raises JSONDecodeError |};
     close_error := never_fails |}.



Definition E_office_slow : env :=
  {| fs := office; network := fun _ => Raises RequestsConnectTimeout;
     close_error := never_fails |}.


(** A state in which an earlier call left one file object open. *)
Definition s_busy : state :=
  {| file_objs := [fresh_obj "earlier.pdf"]; sent := []; log := [] |}.

(** [soffice] exits with status 0 and leaves no output file behind. *)
Definition soffice_silent : DocUtils.env :=
  {| DocUtils.run := fun _ => DocUtils.Exited 0 "";
     DocUtils.exists_after := fun _ => false |}.

(** [soffice] exits with status 0 and [report.docx] is there. *)
Definition soffice_ok : DocUtils.env :=
  {| DocUtils.run := fun _ => DocUtils.Exited 0 "";
     DocUtils.exists_after := fun p => String.eqb p "report.docx" |}.

(** [soffice] exits with status 1 although an older [report.docx] is
    on disk. *)
Definition soffice_fails : DocUtils.env :=
  {| DocUtils.run := fun _ => DocUtils.Exited 1 "Error: source file could not be loaded";
     DocUtils.exists_after := fun p => String.eqb p "report.docx" |}.

End Worlds.

(** * Properties *)

(** ** The converter helper *)

Section Converter.
Import DocUtils.

Lemma convert_exit_zero (E : env) (p err : string) :
  run E (command p) = Exited 0 err ->
  fst (convert_doc_to_docx E p) = Returns (Some (generated_file p)).
Proof.
  intros Hrun. unfold convert_doc_to_docx, subprocess_run_checked.
  rewrite Hrun. simpl. now destruct (exists_after E (generated_file p)).
Qed.

Lemma convert_exit_nonzero (E : env) (p err : string) (code : Z) :
  run E (command p) = Exited code err -> code <> 0 ->
  convert_doc_to_docx E p = (Returns None, [PrintFailed err]).
Proof.
  intros Hrun Hcode. unfold convert_doc_to_docx, subprocess_run_checked.
  rewrite Hrun. destruct (Z.eqb_spec code 0); [contradiction | reflexivity].
Qed.

Lemma convert_not_started (E : env) (p : string) (e : exn) :
  run E (command p) = NotStarted e -> is_CalledProcessError e = false ->
  convert_doc_to_docx E p = (Raises e, []).
Proof.
  intros Hrun He. unfold convert_doc_to_docx, subprocess_run_checked.
  rewrite Hrun. now destruct e.
Qed.

Lemma convert_report_ok :
  convert_doc_to_docx Worlds.soffice_ok "report.doc"
  = (Returns (Some "report.docx"), [PrintConverted "report.docx"]).
Proof. reflexivity. Qed.

Lemma convert_report_fails :
  convert_doc_to_docx Worlds.soffice_fails "report.doc"
  = (Returns None, [PrintFailed "Error: source file could not be loaded"]).
Proof. reflexivity. Qed.

(** The returned path is rebuilt from the directory and the base name of
    the derived one, which drops a doubled separator before the name. *)
Lemma generated_file_rejoined :
  output_docx_path "out//report.doc" = "out//report.docx" /\
  generated_file "out//report.doc" = "out/report.docx".
Proof. split; reflexivity. Qed.

(** C4. With [report.doc] as input, [soffice] exiting with status 0 and
    no [report.docx] on disk afterwards, the function prints that the
    conversion failed because the output file was not found, and still
    returns the path [report.docx] instead of [None]. *)
Theorem convert_returns_path_of_missing_output :
  exists_after Worlds.soffice_silent "report.docx" = false /\
  convert_doc_to_docx Worlds.soffice_silent "report.doc"
  = (Returns (Some "report.docx"), [PrintOutputMissing]).
Proof. split; reflexivity. Qed.

End Converter.

(** ** MIME detection *)

Section Mime.
Import PyStr Minueru.

Lemma mime_map_unknown (ext : string) :
  ext ∉ known_suffixes -> mime_map !! ext = None.
Proof. intros H. apply not_elem_of_list_to_map_1. exact H. Qed.

Lemma detect_of_suffix (p ext mime : string) :
  lower (PurePath.suffix p) = ext -> mime_map !! ext = Some mime ->
  _detect_mime_type p = mime.
Proof. intros <- H. unfold _detect_mime_type. now rewrite H. Qed.

(** C5. [_detect_mime_type] returns, for every path, a value fixed by
    the lowercased suffix of the path alone: the MIME type of the table
    for each of the eleven suffixes, [application/octet-stream] for
    every other suffix; so [a.PDF] and [a.pdf] both give
    [application/pdf], and [a.xyz] the default. *)
Theorem detect_mime_type_table :
  (forall p : string,
      let ext := lower (PurePath.suffix p) in
      (ext = ".pdf" -> _detect_mime_type p = "application/pdf") /\
      (ext = ".doc" -> _detect_mime_type p = "application/msword") /\
      (ext = ".docx" -> _detect_mime_type p
         = "application/vnd.openxmlformats-officedocument.wordprocessingml.document") /\
      (ext = ".xls" -> _detect_mime_type p = "application/vnd.ms-excel") /\
      (ext = ".xlsx" -> _detect_mime_type p
         = "application/vnd.openxmlformats-officedocument.spreadsheetml.sheet") /\
      (ext = ".ppt" -> _detect_mime_type p = "application/vnd.ms-powerpoint") /\
      (ext = ".pptx" -> _detect_mime_type p
         = "application/vnd.openxmlformats-officedocument.presentationml.presentation") /\
      (ext = ".txt" -> _detect_mime_type p = "text/plain") /\
      (ext = ".md" -> _detect_mime_type p = "text/markdown") /\
      (ext = ".html" -> _detect_mime_type p = "text/html") /\
      (ext = ".htm" -> _detect_mime_type p = "text/html") /\
      (ext ∉ known_suffixes ->
       _detect_mime_type p = "application/octet-stream")) /\
  (forall p q : string,
      lower (PurePath.suffix p) = lower (PurePath.suffix q) ->
      _detect_mime_type p = _detect_mime_type q) /\
  _detect_mime_type "a.PDF" = "application/pdf" /\
  _detect_mime_type "a.pdf" = "application/pdf" /\
  _detect_mime_type "a.xyz" = "application/octet-stream".
Proof.
  split; [| split; [| repeat split; reflexivity]].
  - intros p ext.
    repeat match goal with
           | |- (_ = _ -> _) /\ _ => split;
               [ intros H; exact (detect_of_suffix p _ _ H eq_refl) |]
           end.
    intros H. unfold _detect_mime_type. fold ext.
    now rewrite (mime_map_unknown ext H).
  - intros p q H. unfold _detect_mime_type. now rewrite H.
Qed.

Lemma detect_mime_type_table_witness :
  _detect_mime_type "docs/Report.DOCX"
  = "application/vnd.openxmlformats-officedocument.wordprocessingml.document".
Proof.
  destruct detect_mime_type_table as [H _].
  destruct (H "docs/Report.DOCX") as (_ & _ & Hdocx & _).
  apply Hdocx. reflexivity.
Defined.

End Mime.

(** ** The parsing client *)

Section Client.
Import PyStr Minueru.
#[local] Open Scope list_scope.

Ltac run_M :=
  unfold mbind, M_bind, mret, M_ret, raise, logger, http in *; simpl in *.

(** *** Opening the files *)

(** One turn of the loop of [_prepare_files], by what [os.stat] finds. *)
Lemma prepare_loop_step (E : env) (p : string) (rest : list string)
    (files : list upload_entry) (s : state) :
  prepare_loop E (p :: rest) files s
  = match fs E !! PurePath.Path p with
    | None =>
        (Raises (FileNotFoundError ("文件不存在: " +:+ PurePath.Path p)), s)
    | Some (Unstatable errno) => (Raises (OSError errno), s)
    | Some Directory =>
        (Raises (ValueError ("不是有效的文件: " +:+ PurePath.Path p)), s)
    | Some (RegularFile false) =>
        (Raises (PermissionError (PurePath.Path p)), s)
    | Some (RegularFile true) =>
        prepare_loop E rest
          (files ++ [entry_of (PurePath.Path p) (length (file_objs s))])
          {| file_objs := file_objs s ++ [fresh_obj (PurePath.Path p)];
             sent := sent s; log := log s |}
    end.
Proof.
  simpl. unfold mbind, M_bind, lift, path_exists, is_file, py_open.
  destruct (fs E !! PurePath.Path p) as [[[] | | errno] |]; reflexivity.
Qed.

Lemma prepare_loop_trace (E : env) (paths : list string) :
  forall files s,
    sent (snd (prepare_loop E paths files s)) = sent s /\
    log (snd (prepare_loop E paths files s)) = log s.
Proof.
  induction paths as [| p rest IH]; intros files s; [done |].
  rewrite prepare_loop_step.
  destruct (fs E !! PurePath.Path p) as [[[] | | errno] |]; try done.
  match goal with |- context [prepare_loop E rest ?f ?t] =>
    destruct (IH f t) as [-> ->] end.
  done.
Qed.

Lemma prepare_files_loop (E : env) (paths : list string) (s : state) :
  paths <> [] -> _prepare_files E paths s = prepare_loop E paths [] s.
Proof. now destruct paths. Qed.

Lemma prepare_files_trace (E : env) (paths : list string) (s : state) :
  sent (snd (_prepare_files E paths s)) = sent s /\
  log (snd (_prepare_files E paths s)) = log s.
Proof.
  destruct paths as [| p rest]; [done |].
  apply (prepare_loop_trace E (p :: rest)).
Qed.

(** The loop over paths that can all be opened. *)
Lemma prepare_loop_skip (E : env) (pre : list string) :
  Forall (openable E) pre ->
  forall rest files s,
    prepare_loop E (pre ++ rest) files s
    = prepare_loop E rest
        (files ++ entries_from (length (file_objs s)) pre)
        {| file_objs := file_objs s ++ map fresh_obj (map PurePath.Path pre);
           sent := sent s; log := log s |}.
Proof.
  induction 1 as [| p pre Hp Hpre IH]; intros rest files s.
  - unfold entries_from. simpl. rewrite !app_nil_r. now destruct s.
  - change ((p :: pre) ++ rest) with (p :: (pre ++ rest)).
    rewrite prepare_loop_step. unfold openable in Hp. rewrite Hp.
    rewrite IH. simpl. rewrite length_app, <- !app_assoc. simpl.
    f_equal. f_equal. unfold entries_from. simpl. f_equal.
    + unfold entry_of. now rewrite Nat.add_0_r.
    + apply imap_ext. intros i q _. unfold entry_of, compose. f_equal. lia.
Qed.

Lemma prepare_loop_all_openable (E : env) (paths : list string) :
  Forall (openable E) paths ->
  forall files s, exists s1,
    prepare_loop E paths files s
    = (Returns (files ++ entries_from (length (file_objs s)) paths), s1).
Proof.
  intros Hall files s. eexists.
  rewrite <- (app_nil_r paths) at 1.
  rewrite (prepare_loop_skip E paths Hall). reflexivity.
Qed.

Lemma prepare_loop_returns (E : env) (paths : list string) :
  forall files s fl s1,
    prepare_loop E paths files s = (Returns fl, s1) ->
    fl = files ++ imap (fun i p => entry_of p (length (file_objs s) + i))
                       (map PurePath.Path paths) /\
    file_objs s1 = file_objs s ++ map fresh_obj (map PurePath.Path paths).
Proof.
  induction paths as [| p rest IH]; intros files s fl s1.
  - simpl. unfold mret, M_ret. intros [= <- <-]. now rewrite !app_nil_r.
  - rewrite prepare_loop_step.
    destruct (fs E !! PurePath.Path p) as [[[] | | errno] |];
      try discriminate.
    intros H. apply IH in H as [-> ->]. simpl.
    rewrite length_app, <- !app_assoc. simpl. split; [| done].
    f_equal. f_equal.
    + unfold entry_of. now rewrite Nat.add_0_r.
    + apply imap_ext. intros i q _. unfold entry_of, compose. f_equal. lia.
Qed.

Lemma prepare_loop_returns_openable (E : env) (paths : list string) :
  forall files s fl s1,
    prepare_loop E paths files s = (Returns fl, s1) ->
    Forall (openable E) paths.
Proof.
  induction paths as [| p rest IH]; intros files s fl s1; [done |].
  rewrite prepare_loop_step.
  destruct (fs E !! PurePath.Path p) as [[[] | | errno] |] eqn:Hfs;
    try discriminate.
  intros H. constructor; [exact Hfs | eapply IH, H].
Qed.

(** Whatever the loop comes to, it has only added open file objects, for
    paths taken from the front of the list. *)
Lemma prepare_loop_objs (E : env) (paths : list string) :
  forall files s, exists qs,
    qs `prefix_of` map PurePath.Path paths /\
    file_objs (snd (prepare_loop E paths files s))
    = file_objs s ++ map fresh_obj qs.
Proof.
  induction paths as [| p rest IH]; intros files s.
  - exists []. simpl. now rewrite app_nil_r.
  - rewrite prepare_loop_step.
    destruct (fs E !! PurePath.Path p) as [[[] | | errno] |];
      try (exists []; simpl; rewrite app_nil_r; split;
           [apply prefix_nil | done]).
    match goal with |- context [prepare_loop E rest ?f ?t] =>
      destruct (IH f t) as (qs & Hpre & Hobjs) end.
    exists (PurePath.Path p :: qs). split.
    + simpl. now apply prefix_cons.
    + rewrite Hobjs. simpl. now rewrite <- app_assoc.
Qed.

Lemma prepare_files_objs (E : env) (paths : list string) (s : state) :
  exists qs,
    qs `prefix_of` map PurePath.Path paths /\
    file_objs (snd (_prepare_files E paths s))
    = file_objs s ++ map fresh_obj qs.
Proof.
  destruct paths as [| p rest].
  - exists []. simpl. now rewrite app_nil_r.
  - apply (prepare_loop_objs E (p :: rest)).
Qed.

Lemma prepare_loop_not_seen (E : env) (paths : list string) :
  (exists p, p ∈ paths /\ not_seen E p) ->
  forall files s, exists e, fst (prepare_loop E paths files s) = Raises e.
Proof.
  induction paths as [| q rest IH]; intros (p & Hin & Hp) files s.
  - inversion Hin.
  - rewrite prepare_loop_step.
    destruct (fs E !! PurePath.Path q) as [[[] | | errno] |] eqn:Hfs;
      simpl; eauto.
    apply IH. exists p. split; [| done].
    apply elem_of_cons in Hin as [-> | Hin]; [| done].
    unfold not_seen in Hp. now rewrite Hfs in Hp.
Qed.

Lemma prepare_files_spec (E : env) (paths : list string) (s : state) :
  (exists files s1, _prepare_files E paths s = (Returns files, s1))
  <-> paths <> [] /\ Forall (openable E) paths.
Proof.
  split.
  - intros (files & s1 & H). destruct paths as [| p rest]; [discriminate H |].
    split; [done |].
    exact (prepare_loop_returns_openable E (p :: rest) [] s files s1 H).
  - intros [Hne Hall].
    destruct (prepare_loop_all_openable E paths Hall [] s) as [s1 Hs1].
    rewrite prepare_files_loop by done. eauto.
Qed.

(** *** Closing the files *)

Lemma close_entry_trace (E : env) (en : upload_entry) (s : state) :
  fst (close_entry E en s) = Returns tt /\
  sent (snd (close_entry E en s)) = sent s /\
  exists w, log (snd (close_entry E en s)) = log s ++ w /\
            Forall (fun lm => fst lm = WARNING) w.
Proof.
  unfold close_entry.
  destruct (file_objs s !! fileobj en) as [f |];
    [| repeat split; exists []; now rewrite app_nil_r].
  destruct (closed f); [repeat split; exists []; now rewrite app_nil_r |].
  destruct (close_error E (f_path f)) as [e |]; simpl.
  - repeat split. eexists. split; [reflexivity |]. now repeat constructor.
  - repeat split. exists []. now rewrite app_nil_r.
Qed.


Lemma closed_by_nil (i : nat) (f : file_obj) : closed_by [] i f = f.
Proof. reflexivity. Qed.

Lemma closed_by_cons (en : upload_entry) (files : list upload_entry)
    (i : nat) (f : file_obj) :
  closed_by files i (closed_by [en] i f) = closed_by (en :: files) i f.
Proof.
  unfold closed_by. simpl.
  destruct (decide (i = fileobj en)) as [-> | Hne].
  - rewrite (bool_decide_eq_true_2 (fileobj en ∈ [fileobj en]))
      by (apply elem_of_cons; now left).
    rewrite (bool_decide_eq_true_2 (fileobj en ∈ fileobj en :: _))
      by (apply elem_of_cons; now left).
    simpl. destruct (closed f) eqn:Hc; simpl.
    + rewrite Hc. now rewrite andb_false_r.
    + now rewrite andb_false_r.
  - rewrite (bool_decide_eq_false_2 (i ∈ [fileobj en]))
      by (intros H; apply list_elem_of_singleton in H; done).
    simpl.
    rewrite (bool_decide_ext (i ∈ fileobj en :: map fileobj files)
               (i ∈ map fileobj files)); [done |].
    rewrite elem_of_cons. split; [intros [Heq | Hin]; done | now right].
Qed.

Lemma close_entry_lookup (E : env) (en : upload_entry) (s : state) (i : nat) :
  file_objs (snd (close_entry E en s)) !! i
  = closed_by [en] i <$> file_objs s !! i.
Proof.
  assert (Hid : forall o : option file_obj, o = (fun f => f) <$> o)
    by (now intros []).
  unfold close_entry, closed_by. simpl.
  destruct (decide (i = fileobj en)) as [-> | Hne].
  - rewrite bool_decide_eq_true_2 by (apply elem_of_cons; now left). simpl.
    destruct (file_objs s !! fileobj en) as [f |] eqn:Hf; simpl;
      [| now rewrite Hf].
    destruct (closed f) eqn:Hc; simpl; [now rewrite Hf |].
    destruct (close_error E (f_path f)); simpl;
      apply list_lookup_insert_eq; now apply lookup_lt_Some in Hf.
  - rewrite bool_decide_eq_false_2
      by (intros H; apply list_elem_of_singleton in H; done).
    simpl.
    destruct (file_objs s !! fileobj en) as [f |]; simpl; [| apply Hid].
    destruct (closed f); simpl; [apply Hid |].
    destruct (close_error E (f_path f)); simpl;
      rewrite list_lookup_insert_ne by done; apply Hid.
Qed.

Lemma close_files_lookup (E : env) (files : list upload_entry) :
  forall s i,
    file_objs (snd (_close_files E files s)) !! i
    = closed_by files i <$> file_objs s !! i.
Proof.
  induction files as [| en rest IH]; intros s i; simpl.
  - now destruct (file_objs s !! i).
  - unfold mbind, M_bind.
    pose proof (close_entry_trace E en s) as (Hr & _).
    pose proof (close_entry_lookup E en s i) as Hl.
    destruct (close_entry E en s) as [r s1]; simpl in *. subst r.
    rewrite IH, Hl. destruct (file_objs s !! i) as [f |]; simpl; [| done].
    now rewrite closed_by_cons.
Qed.

(** Closing the entries of file objects that were just opened. *)
Lemma close_files_fresh (E : env) (qs : list string) :
  forall pre post s,
    file_objs s = pre ++ map fresh_obj qs ++ post ->
    _close_files E (imap (fun i p => entry_of p (length pre + i)) qs) s
    = (Returns tt,
       {| file_objs := pre ++ map closed_once qs ++ post;
          sent := sent s;
          log := log s ++ flat_map (close_warning E) qs |}).
Proof.
  induction qs as [| q rest IH]; intros pre post s Hs.
  - simpl in *. unfold mret, M_ret. rewrite app_nil_r, <- Hs. now destruct s.
  - simpl in Hs. simpl. unfold mbind, M_bind, close_entry. simpl. rewrite Hs.
    rewrite list_lookup_middle by lia. simpl.
    rewrite insert_app_r. simpl.
    rewrite (imap_ext _ (fun i p => entry_of p
                                      (length (pre ++ [closed_once q]) + i)))
      by (intros i p _; unfold compose; rewrite length_app; simpl;
          f_equal; lia).
    unfold close_warning at 1.
    destruct (close_error E q) as [e |]; simpl;
      (rewrite IH with (post := post);
       [ simpl; rewrite <- !app_assoc; reflexivity
       | simpl; now rewrite <- app_assoc ]).
Qed.

(** *** The file objects nothing refers to *)

Lemma finalize_none (n : nat) (live : list nat) (s : state) :
  (forall i, (n <= i < length (file_objs s))%nat -> i ∈ live) ->
  finalize_unreferenced n live s = (Returns tt, s).
Proof.
  intros Hlive. unfold finalize_unreferenced. f_equal.
  destruct s as [objs snt lg]. simpl in *. f_equal.
  apply list_eq. intros i. rewrite list_lookup_imap.
  destruct (objs !! i) as [f |] eqn:Hf; simpl; [| done].
  unfold finalized. rewrite bool_decide_eq_false_2; [done |].
  intros [Hn Hnot]. apply Hnot, Hlive. apply lookup_lt_Some in Hf. lia.
Qed.

Lemma finalize_orphans (pre : list file_obj) (qs : list string) (s : state) :
  file_objs s = pre ++ map fresh_obj qs ->
  finalize_unreferenced (length pre) [] s
  = (Returns tt,
     {| file_objs := pre ++ map closed_once qs;
        sent := sent s; log := log s |}).
Proof.
  intros Hs. unfold finalize_unreferenced. f_equal. f_equal.
  rewrite Hs. apply list_eq. intros i. rewrite list_lookup_imap.
  destruct (decide (i < length pre)%nat) as [Hlt | Hge].
  - rewrite !lookup_app_l by done.
    destruct (pre !! i) as [f |]; simpl; [| done].
    unfold finalized. rewrite bool_decide_eq_false_2 by lia. done.
  - rewrite !lookup_app_r by lia. rewrite !list_lookup_fmap.
    destruct (qs !! (i - length pre)%nat) as [q |]; simpl; [| done].
    unfold finalized. rewrite bool_decide_eq_true_2; [done |].
    split; [lia | apply not_elem_of_nil].
Qed.

Lemma fileobj_entries (n : nat) (paths : list string) (i : nat) :
  (n <= i < n + length paths)%nat ->
  i ∈ map fileobj (entries_from n paths).
Proof.
  intros Hi. apply list_elem_of_lookup. exists (i - n)%nat.
  unfold entries_from.
  rewrite list_lookup_fmap, list_lookup_imap, list_lookup_fmap.
  destruct (lookup_lt_is_Some_2 paths (i - n)%nat ltac:(lia)) as [p ->].
  simpl. f_equal. lia.
Qed.

Lemma close_warnings_map (E : env) (paths : list string) :
  flat_map (close_warning E) (map PurePath.Path paths) = close_warnings E paths.
Proof.
  unfold close_warnings. induction paths as [| p rest IH]; simpl; [done |].
  now rewrite IH.
Qed.

(** *** The handlers *)

Lemma parse_except_logs (c : client) (e : exn) (s : state) :
  parse_except c e s = (Returns PyNone, logged ERROR (except_message c e) s).
Proof.
  unfold parse_except, except_message.
  destruct (is_Timeout e); [done |].
  destruct (is_ConnectionError e); [done |].
  now destruct (is_FileNotFoundError e).
Qed.

(** *** The upload *)

Lemma upload_result (E : env) (c : client) (files : list upload_entry)
    (s : state) :
  fst (upload E c files s)
  = match network E (post_request c files) with
    | Returns r =>
        if status_code r =? 200 then
          match json r with
          | Returns v => Returns v
          | Raises e => if is_JSONDecodeError e then Returns PyNone else Raises e
          end
        else Returns PyNone
    | Raises e => Raises e
    end.
Proof.
  unfold upload. run_M.
  destruct (network E (post_request c files)) as [r | e]; [| done].
  destruct (status_code r =? 200); [| done].
  unfold decode_body. destruct (json r) as [v | e]; [done |].
  now destruct (is_JSONDecodeError e).
Qed.

Lemma upload_trace (E : env) (c : client) (files : list upload_entry)
    (s : state) :
  sent (snd (upload E c files s)) = sent s ++ [post_request c files] /\
  file_objs (snd (upload E c files s)) = file_objs s.
Proof.
  unfold upload. run_M.
  destruct (network E (post_request c files)) as [r | e]; [| done].
  destruct (status_code r =? 200); [| done].
  unfold decode_body. destruct (json r) as [v | e]; [done |].
  now destruct (is_JSONDecodeError e).
Qed.

Lemma upload_log (E : env) (c : client) (files : list upload_entry)
    (s : state) :
  log (snd (upload E c files s))
  = log s ++
    (INFO, MsgParsing (length files)) ::
    match network E (post_request c files) with
    | Raises e => []
    | Returns r =>
        (INFO, MsgStatus (status_code r)) ::
        if status_code r =? 200 then
          match json r with
          | Returns _ => [(INFO, MsgParsed)]
          | Raises e =>
              if is_JSONDecodeError e
              then [(ERROR, MsgJsonFailed e); (DEBUG, MsgRawResponse (text500 r))]
              else []
          end
        else [(ERROR, MsgRequestFailed (status_code r));
              (ERROR, MsgErrorText (text500 r))]
    end.
Proof.
  unfold upload. run_M.
  destruct (network E (post_request c files)) as [r | e]; simpl; [| done].
  destruct (status_code r =? 200); simpl;
    [| now rewrite <- !app_assoc].
  unfold decode_body. destruct (json r) as [v | e]; simpl;
    [now rewrite <- !app_assoc |].
  destruct (is_JSONDecodeError e); simpl; now rewrite <- !app_assoc.
Qed.

(** *** [parse], by what [_prepare_files] came to *)

Lemma parse_prepare_raises (E : env) (c : client) (paths : list string)
    (s s1 : state) (e : exn) :
  _prepare_files E paths s = (Raises e, s1) ->
  exists qs,
    qs `prefix_of` map PurePath.Path paths /\
    file_objs s1 = file_objs s ++ map fresh_obj qs /\
    parse E c paths s
    = (Returns PyNone,
       {| file_objs := file_objs s ++ map closed_once qs;
          sent := sent s;
          log := log s ++ [(ERROR, except_message c e)] |}).
Proof.
  intros Hp.
  destruct (prepare_files_objs E paths s) as (qs & Hpre & Hobjs).
  destruct (prepare_files_trace E paths s) as [Hsent Hlog].
  rewrite Hp in Hobjs, Hsent, Hlog. simpl in *.
  exists qs. split; [done |]. split; [done |].
  unfold parse, parse_try. rewrite Hp, parse_except_logs.
  change (map fileobj []) with (@nil nat).
  rewrite (finalize_orphans (file_objs s) qs) by exact Hobjs.
  simpl. unfold mret, M_ret. now rewrite Hsent, Hlog.
Qed.

Lemma parse_prepare_returns_state (E : env) (c : client)
    (paths : list string) (s s1 : state) (files : list upload_entry) :
  _prepare_files E paths s = (Returns files, s1) ->
  parse E c paths s
  = (match fst (upload E c files s1) with
     | Returns v => Returns v
     | Raises _ => Returns PyNone
     end,
     {| file_objs := file_objs s ++ map closed_once (map PurePath.Path paths);
        sent := sent s ++ [post_request c files];
        log := (log (snd (upload E c files s1)) ++
                match fst (upload E c files s1) with
                | Returns _ => []
                | Raises e => [(ERROR, except_message c e)]
                end) ++ close_warnings E paths |}).
Proof.
  intros Hp.
  assert (Hne : paths <> []) by (intros ->; discriminate Hp).
  pose proof Hp as Hloop. rewrite prepare_files_loop in Hloop by done.
  apply prepare_loop_returns in Hloop as [Hfiles Hobjs]. simpl in Hfiles.
  destruct (prepare_files_trace E paths s) as [Hsent _].
  rewrite Hp in Hsent. simpl in Hsent.
  destruct (upload_trace E c files s1) as [Hsent2 Hobjs2].
  rewrite Hsent in Hsent2. rewrite Hobjs in Hobjs2.
  unfold parse, parse_try. rewrite Hp.
  assert (Hfin : forall t,
             file_objs t = file_objs s ++ map fresh_obj (map PurePath.Path paths) ->
             finalize_unreferenced (length (file_objs s)) (map fileobj files) t
             = (Returns tt, t)).
  { intros t Ht. apply finalize_none. rewrite Ht, length_app, !length_map.
    intros i Hi. rewrite Hfiles. now apply fileobj_entries. }
  assert (Hclose : forall t,
             file_objs t = file_objs s ++ map fresh_obj (map PurePath.Path paths) ->
             _close_files E files t
             = (Returns tt,
                {| file_objs := file_objs s
                                ++ map closed_once (map PurePath.Path paths);
                   sent := sent t;
                   log := log t ++ close_warnings E paths |})).
  { intros t Ht.
    pose proof (close_files_fresh E (map PurePath.Path paths)
                  (file_objs s) [] t) as Hc.
    rewrite <- Hfiles, !app_nil_r, close_warnings_map in Hc. now apply Hc. }
  destruct (upload E c files s1) as [[v | e] s2];
    simpl in Hsent2, Hobjs2; cbn [fst snd].
  - rewrite (Hfin s2 Hobjs2), (Hclose s2 Hobjs2).
    now rewrite Hsent2, app_nil_r.
  - rewrite parse_except_logs.
    rewrite (Hfin (logged ERROR (except_message c e) s2) Hobjs2).
    rewrite (Hclose (logged ERROR (except_message c e) s2) Hobjs2).
    simpl. now rewrite Hsent2.
Qed.

Lemma parse_prepare_returns (E : env) (c : client) (paths : list string)
    (s s1 : state) (files : list upload_entry) :
  _prepare_files E paths s = (Returns files, s1) ->
  fst (parse E c paths s)
  = match fst (upload E c files s1) with
    | Returns v => Returns v
    | Raises _ => Returns PyNone
    end /\
  sent (snd (parse E c paths s)) = sent s ++ [post_request c files].
Proof.
  intros Hp. now rewrite (parse_prepare_returns_state E c paths s s1 files Hp).
Qed.

(** When [_prepare_files] returns, [parse] leaves the world with one
    more file object per path, each closed by exactly one call of
    [.close()], and the earlier ones as they were. *)
Lemma parse_closes_prepared_files (E : env) (c : client)
    (paths : list string) (s s1 : state) (files : list upload_entry) :
  _prepare_files E paths s = (Returns files, s1) ->
  file_objs (snd (parse E c paths s))
  = file_objs s ++ map closed_once (map PurePath.Path paths).
Proof.
  intros Hp. now rewrite (parse_prepare_returns_state E c paths s s1 files Hp).
Qed.

Lemma parse_log_after_prepare (E : env) (c : client) (paths : list string)
    (s s1 : state) (files : list upload_entry) :
  _prepare_files E paths s = (Returns files, s1) ->
  log (snd (parse E c paths s))
  = log s ++
    (INFO, MsgParsing (length files)) ::
    match network E (post_request c files) with
    | Raises e => [(ERROR, except_message c e)]
    | Returns r =>
        (INFO, MsgStatus (status_code r)) ::
        if status_code r =? 200 then
          match json r with
          | Returns _ => [(INFO, MsgParsed)]
          | Raises e =>
              if is_JSONDecodeError e
              then [(ERROR, MsgJsonFailed e); (DEBUG, MsgRawResponse (text500 r))]
              else [(ERROR, except_message c e)]
          end
        else [(ERROR, MsgRequestFailed (status_code r));
              (ERROR, MsgErrorText (text500 r))]
    end ++ close_warnings E paths.
Proof.
  intros Hp.
  destruct (prepare_files_trace E paths s) as [_ Hlog]. rewrite Hp in Hlog.
  simpl in Hlog.
  rewrite (parse_prepare_returns_state E c paths s s1 files Hp). simpl.
  rewrite upload_log, upload_result, Hlog.
  destruct (network E (post_request c files)) as [r | e]; simpl.
  - destruct (status_code r =? 200); simpl;
      [| now rewrite <- !app_assoc].
    destruct (json r) as [v | e]; simpl; [now rewrite <- !app_assoc |].
    destruct (is_JSONDecodeError e); simpl; now rewrite <- !app_assoc.
  - now rewrite <- !app_assoc.
Qed.

(** C1. [_prepare_files] raises [ValueError] on the empty list without
    touching the world, and [parse] handles it in its last [except]
    clause: it logs the error, sends nothing and returns [None]. *)
Theorem parse_empty_returns_none (E : env) (c : client) (s : state) :
  _prepare_files E [] s = (Raises (ValueError "文件列表不能为空"), s) /\
  fst (parse E c [] s) = Returns PyNone /\
  sent (snd (parse E c [] s)) = sent s /\
  log (snd (parse E c [] s))
  = log s ++ [(ERROR, MsgException (ValueError "文件列表不能为空"))].
Proof.
  split; [reflexivity |].
  destruct (parse_prepare_raises E c [] s s _ eq_refl) as (qs & _ & _ & ->).
  done.
Qed.

(** C1, as stated, fails: on the empty list [parse] returns [None] and
    raises nothing. *)
Lemma parse_empty_does_not_raise :
  fst (parse Worlds.E_ok Worlds.local_client [] Worlds.s0) = Returns PyNone /\
  forall e, fst (parse Worlds.E_ok Worlds.local_client [] Worlds.s0) <> Raises e.
Proof. split; [reflexivity | intros e H; discriminate H]. Qed.

(** C2. When some path of the list names no file that [os.stat] can
    find, [_prepare_files] raises, and [parse] returns [None] without any
    request being sent.  When the paths before the first such path are
    readable regular files, the exception is [FileNotFoundError], logged
    by the clause for it, if [Path.exists()] reports that nothing is
    there; it is the [OSError] of [Path.exists()] itself, logged by the
    last clause, if the test cannot be made (a name that is too long). *)
Theorem parse_missing_path_returns_none (E : env) (c : client)
    (paths : list string) (s : state) :
  (exists p, p ∈ paths /\ not_seen E p) ->
  (exists e, fst (_prepare_files E paths s) = Raises e) /\
  fst (parse E c paths s) = Returns PyNone /\
  sent (snd (parse E c paths s)) = sent s /\
  (forall pre p post,
      paths = pre ++ p :: post ->
      Forall (openable E) pre ->
      (fs E !! PurePath.Path p = None ->
       fst (_prepare_files E paths s)
       = Raises (FileNotFoundError ("文件不存在: " +:+ PurePath.Path p)) /\
       log (snd (parse E c paths s))
       = log s ++ [(ERROR, MsgFileError
                             (FileNotFoundError
                                ("文件不存在: " +:+ PurePath.Path p)))]) /\
      (forall errno,
          fs E !! PurePath.Path p = Some (Unstatable errno) ->
          fst (_prepare_files E paths s) = Raises (OSError errno) /\
          log (snd (parse E c paths s))
          = log s ++ [(ERROR, MsgException (OSError errno))])).
Proof.
  intros Hmiss.
  assert (Hne : paths <> []).
  { destruct Hmiss as (p & Hin & _). intros ->. inversion Hin. }
  destruct (prepare_loop_not_seen E paths Hmiss [] s) as [e He].
  rewrite <- prepare_files_loop in He by done.
  destruct (_prepare_files E paths s) as [r s1] eqn:Hp. simpl in He. subst r.
  destruct (parse_prepare_raises E c paths s s1 e Hp) as (qs & _ & _ & Hparse).
  rewrite Hparse. simpl.
  split; [eauto |]. split; [done |]. split; [done |].
  intros pre p post -> Hpre.
  assert (Hfirst : (Raises e : outcome (list upload_entry))
                   = fst (prepare_loop E (p :: post)
                            ([] ++ entries_from (length (file_objs s)) pre)
                            {| file_objs := file_objs s
                                 ++ map fresh_obj (map PurePath.Path pre);
                               sent := sent s; log := log s |})).
  { rewrite <- (prepare_loop_skip E pre Hpre), <- prepare_files_loop by done.
    now rewrite Hp. }
  rewrite prepare_loop_step in Hfirst. split.
  - intros Hfs. rewrite Hfs in Hfirst. simpl in Hfirst.
    injection Hfirst as ->. done.
  - intros errno Hfs. rewrite Hfs in Hfirst. simpl in Hfirst.
    injection Hfirst as ->. done.
Qed.

Lemma parse_missing_path_returns_none_witness :
  not_seen Worlds.E_office_500 "toolong.pdf" /\
  fst (parse Worlds.E_office_500 Worlds.local_client
         ["a.pdf"; "toolong.pdf"] Worlds.s0)
  = Returns PyNone /\
  sent (snd (parse Worlds.E_office_500 Worlds.local_client
               ["a.pdf"; "toolong.pdf"] Worlds.s0)) = [].
Proof.
  split; [exact I |].
  refine (let H := parse_missing_path_returns_none
                     Worlds.E_office_500 Worlds.local_client
                     ["a.pdf"; "toolong.pdf"] Worlds.s0 _ in
          conj (proj1 (proj2 H)) (proj1 (proj2 (proj2 H)))).
  exists "toolong.pdf". split; [| exact I].
  apply list_elem_of_In. simpl. right. left. reflexivity.
Defined.

(** C2, as stated, fails: with the one path [missing.pdf], which is not
    on disk, [parse] returns [None] and raises nothing. *)
Lemma parse_missing_path_does_not_raise :
  fs Worlds.E_ok !! PurePath.Path "missing.pdf" = None /\
  fst (parse Worlds.E_ok Worlds.local_client ["missing.pdf"] Worlds.s0)
  = Returns PyNone /\
  forall e,
    fst (parse Worlds.E_ok Worlds.local_client ["missing.pdf"] Worlds.s0)
    <> Raises e.
Proof. repeat split. intros e H. discriminate H. Qed.

(** *** The file objects of a call *)


(** *** The answer of the service *)

(** C6. Once the files are open and the POST has been answered: a
    response with status 200 whose body decodes makes [parse] return the
    decoded value itself, and a response with any other status makes it
    return [None]. *)
Theorem parse_on_response (E : env) (c : client) (paths : list string)
    (s s1 : state) (files : list upload_entry) (r : response) :
  _prepare_files E paths s = (Returns files, s1) ->
  network E (post_request c files) = Returns r ->
  (status_code r = 200 ->
   forall v, json r = Returns v -> fst (parse E c paths s) = Returns v) /\
  (status_code r <> 200 -> fst (parse E c paths s) = Returns PyNone).
Proof.
  intros Hp Hnet.
  destruct (parse_prepare_returns E c paths s s1 files Hp) as [-> _].
  rewrite upload_result, Hnet. split.
  - intros -> v ->. reflexivity.
  - intros Hst. now destruct (Z.eqb_spec (status_code r) 200).
Qed.

Lemma parse_on_response_witness :
  fst (parse Worlds.E_ok Worlds.local_client ["a.pdf"] Worlds.s0)
  = Returns (PyDict []) /\
  fst (parse Worlds.E_404 Worlds.local_client ["a.pdf"] Worlds.s0)
  = Returns PyNone.
Proof.
  split.
  - refine (proj1 (parse_on_response Worlds.E_ok Worlds.local_client
                     ["a.pdf"] Worlds.s0 _ _ _ eq_refl eq_refl)
                  eq_refl _ eq_refl).
  - refine (proj2 (parse_on_response Worlds.E_404 Worlds.local_client
                     ["a.pdf"] Worlds.s0 _ _ _ eq_refl eq_refl) _).
    discriminate.
Defined.


(** C7. [parse_single] on a path is [parse] on the one-element list of
    that path: the same result and the same final state, from every
    state. *)
Theorem parse_single_is_parse (E : env) (c : client) (file_path : string)
    (s : state) :
  parse_single E c file_path s = parse E c [file_path] s.
Proof. reflexivity. Qed.

(** C9. [parse] always returns: its result is [None] or the value that
    the body of a 200 response decoded to; no exception leaves it. *)
Theorem parse_never_raises (E : env) (c : client) (paths : list string)
    (s : state) :
  exists v,
    fst (parse E c paths s) = Returns v /\
    (v = PyNone \/
     exists files s1 r,
       _prepare_files E paths s = (Returns files, s1) /\
       network E (post_request c files) = Returns r /\
       status_code r = 200 /\ json r = Returns v).
Proof.
  destruct (_prepare_files E paths s) as [[files | e] s1] eqn:Hp.
  - destruct (parse_prepare_returns E c paths s s1 files Hp) as [-> _].
    rewrite upload_result.
    destruct (network E (post_request c files)) as [r | e] eqn:Hnet;
      [| eauto].
    destruct (Z.eqb_spec (status_code r) 200) as [Hst | Hst]; [| eauto].
    destruct (json r) as [v | e] eqn:Hj.
    + exists v. split; [done |]. right. exists files, s1, r. done.
    + destruct (is_JSONDecodeError e); eauto.
  - destruct (parse_prepare_raises E c paths s s1 e Hp) as (qs & _ & _ & ->).
    eauto.
Qed.

(** *** The endpoint *)

Lemma parse_sent (E : env) (c : client) (paths : list string) (s : state) :
  (paths <> [] /\ Forall (openable E) paths ->
   exists files,
     sent (snd (parse E c paths s)) = sent s ++ [post_request c files]) /\
  (~ (paths <> [] /\ Forall (openable E) paths) ->
   sent (snd (parse E c paths s)) = sent s /\
   fst (parse E c paths s) = Returns PyNone).
Proof.
  split.
  - intros H. apply (prepare_files_spec E paths s) in H as (files & s1 & Hp).
    exists files. now apply (parse_prepare_returns E c paths s s1).
  - intros Hno.
    destruct (_prepare_files E paths s) as [[files | e] s1] eqn:Hp.
    + exfalso. apply Hno. apply (prepare_files_spec E paths s). eauto.
    + destruct (parse_prepare_raises E c paths s s1 e Hp)
        as (qs & _ & _ & ->).
      done.
Qed.

Lemma test_connection_sent (E : env) (c : client) (s : state) :
  sent (snd (test_connection E c s)) = sent s ++ [connection_request c].
Proof.
  unfold test_connection, http.
  now destruct (network E (connection_request c)).
Qed.

(** C10. A client made with [None] or with the empty string has the
    default base URL; one made with a non-empty string has that string;
    the stored base URL is never empty.  [parse] sends its one POST,
    when every path can be opened, to exactly the stored base URL, and
    nothing otherwise.  [test_connection] sends its GET to the stored
    base URL with every ['/file_parse'] removed, which is
    [http://localhost:8008] for a client made with [None] or with the
    empty string. *)
Theorem base_url_substituted_and_used :
  (forall t, base_url (init None t) = "http://localhost:8008/file_parse") /\
  (forall t, base_url (init (Some "") t) = "http://localhost:8008/file_parse") /\
  (forall u t, u <> "" -> base_url (init (Some u) t) = u) /\
  (forall o t, base_url (init o t) <> "") /\
  (forall E o t paths s,
      paths <> [] -> Forall (openable E) paths ->
      exists rq,
        sent (snd (parse E (init o t) paths s)) = sent s ++ [rq] /\
        method rq = POST /\ url rq = base_url (init o t)) /\
  (forall E o t paths s,
      ~ (paths <> [] /\ Forall (openable E) paths) ->
      sent (snd (parse E (init o t) paths s)) = sent s) /\
  (forall E o t s,
      exists rq,
        sent (snd (test_connection E (init o t) s)) = sent s ++ [rq] /\
        method rq = GET /\
        url rq = replace (base_url (init o t)) "/file_parse" "") /\
  (forall o t,
      o = None \/ o = Some "" ->
      replace (base_url (init o t)) "/file_parse" "" = "http://localhost:8008").
Proof.
  split; [done |]. split; [done |].
  split; [| split; [| split; [| split; [| split]]]].
  - intros u t Hu. simpl. destruct (String.eqb_spec u ""); done.
  - intros [u |] t; simpl; [| done].
    destruct (String.eqb_spec u ""); done.
  - intros E o t paths s Hne Hall.
    destruct (proj1 (parse_sent E (init o t) paths s) (conj Hne Hall))
      as [files Hs].
    exists (post_request (init o t) files). done.
  - intros E o t paths s Hno.
    exact (proj1 (proj2 (parse_sent E (init o t) paths s) Hno)).
  - intros E o t s. exists (connection_request (init o t)).
    split; [apply test_connection_sent | done].
  - intros o t [-> | ->]; reflexivity.
Qed.

Lemma base_url_substituted_and_used_witness :
  base_url (init (Some "http://10.0.0.7:9000/file_parse") default_timeout)
  = "http://10.0.0.7:9000/file_parse" /\
  map url (sent (snd (parse Worlds.E_ok (init (Some "") default_timeout)
                        ["a.pdf"] Worlds.s0)))
  = ["http://localhost:8008/file_parse"].
Proof.
  destruct base_url_substituted_and_used as (_ & _ & Hu & _ & Hpost & _).
  split.
  - apply Hu. discriminate.
  - destruct (Hpost Worlds.E_ok (Some "") default_timeout ["a.pdf"] Worlds.s0)
      as (rq & -> & _ & Hurl).
    + discriminate.
    + repeat constructor.
    + simpl. now rewrite Hurl.
Defined.

(** C10, as stated, fails: the non-empty base URL ['/file_parse'] is
    stored as it is, and [test_connection] then addresses its request to
    the empty string, not to the stored string. *)
Lemma connection_url_can_be_empty :
  base_url (init (Some "/file_parse") default_timeout) = "/file_parse" /\
  map url (sent (snd (test_connection Worlds.E_down
                        (init (Some "/file_parse") default_timeout)
                        Worlds.s0)))
  = [""].
Proof. split; reflexivity. Qed.

(** *** The connection test *)

Lemma connection_url_default :
  url (connection_request Worlds.local_client) = "http://localhost:8008".
Proof. reflexivity. Qed.

(** [str.replace] removes every occurrence, wherever it stands. *)
Lemma connection_url_every_occurrence :
  url (connection_request (init (Some "http://h/file_parse/v2/file_parser") 5))
  = "http://h/v2r".
Proof. reflexivity. Qed.

(** C8. [test_connection] always returns a boolean.  It hands one GET to
    the HTTP library, for the base URL with every ['/file_parse'] removed
    and a timeout of 5; it returns [True] exactly when a response with
    status 200 came back.  A response with another status gives [False]
    and logs nothing; an exception gives [False] and one warning. *)
Theorem test_connection_returns_bool (E : env) (c : client) (s : state) :
  sent (snd (test_connection E c s)) = sent s ++ [connection_request c] /\
  method (connection_request c) = GET /\
  url (connection_request c) = replace (base_url c) "/file_parse" "" /\
  req_timeout (connection_request c) = 5 /\
  exists b : bool,
    fst (test_connection E c s) = Returns b /\
    (b = true <->
     exists r, network E (connection_request c) = Returns r /\
               status_code r = 200) /\
    (forall r, network E (connection_request c) = Returns r ->
               log (snd (test_connection E c s)) = log s) /\
    (forall e, network E (connection_request c) = Raises e ->
               b = false /\
               log (snd (test_connection E c s))
               = log s ++ [(WARNING, MsgConnectionTestFailed e)]).
Proof.
  unfold test_connection, http.
  destruct (network E (connection_request c)) as [r | e] eqn:Hnet; simpl.
  - repeat (split; [reflexivity |]).
    exists (status_code r =? 200). split; [reflexivity |]. split; [| split].
    + rewrite Z.eqb_eq. split.
      * intros H. exists r. done.
      * intros (r' & Hr & Hst). congruence.
    + done.
    + intros e He. discriminate He.
  - repeat (split; [reflexivity |]).
    exists false. split; [reflexivity |]. split; [| split].
    + split; [discriminate |]. intros (r & Hr & _). discriminate Hr.
    + intros r Hr. discriminate Hr.
    + intros e' He'. injection He' as ->. done.
Qed.

Lemma test_connection_returns_bool_witness :
  fst (test_connection Worlds.E_down Worlds.local_client Worlds.s0)
  = Returns false /\
  log (snd (test_connection Worlds.E_down Worlds.local_client Worlds.s0))
  = [(WARNING, MsgConnectionTestFailed RequestsConnectionError)].
Proof.
  destruct (test_connection_returns_bool
              Worlds.E_down Worlds.local_client Worlds.s0)
    as (_ & _ & _ & _ & b & Hb & _ & _ & Hexn).
  destruct (Hexn RequestsConnectionError eq_refl) as [-> Hlog].
  split; [exact Hb | exact Hlog].
Defined.

(** C8, as stated, fails: a 404 response makes [test_connection] return
    [False] without anything being logged. *)
Lemma test_connection_404_logs_nothing :
  network Worlds.E_404 (connection_request Worlds.local_client)
  = Returns Worlds.not_found_response /\
  fst (test_connection Worlds.E_404 Worlds.local_client Worlds.s0)
  = Returns false /\
  log (snd (test_connection Worlds.E_404 Worlds.local_client Worlds.s0)) = [].
Proof. repeat split. Qed.

End Client.

(** ** More on the parsing client *)

Section ClientFiles.
Import PyStr Minueru.
#[local] Open Scope list_scope.

(** *** [_prepare_files] *)

(** X1. When the list is not empty and every path names a readable
    regular file, [_prepare_files] returns one entry per path, in the
    order of the list: field name [files], the path's last component, a
    file object of its own, the detected MIME type.  The world gets one
    open file object per path, and nothing is sent or logged. *)
Theorem prepare_files_opens_every_path (E : env) (paths : list string)
    (s : state) :
  paths <> [] ->
  Forall (openable E) paths ->
  exists s1,
    _prepare_files E paths s
    = (Returns (entries_from (length (file_objs s)) paths), s1) /\
    length (entries_from (length (file_objs s)) paths) = length paths /\
    (forall i p,
        paths !! i = Some p ->
        entries_from (length (file_objs s)) paths !! i
        = Some {| field := "files";
                  filename := PurePath.name (PurePath.Path p);
                  fileobj := length (file_objs s) + i;
                  content_type := _detect_mime_type (PurePath.Path p) |}) /\
    file_objs s1 = file_objs s ++ map fresh_obj (map PurePath.Path paths) /\
    sent s1 = sent s /\ log s1 = log s.
Proof.
  intros Hne Hall.
  destruct (prepare_loop_all_openable E paths Hall [] s) as [s1 Hs1].
  simpl in Hs1. exists s1.
  rewrite prepare_files_loop, Hs1 by done. split; [done |].
  split; [unfold entries_from; now rewrite length_imap, length_map |].
  split.
  { intros i p Hi. unfold entries_from.
    rewrite list_lookup_imap, list_lookup_fmap, Hi. reflexivity. }
  destruct (prepare_loop_returns E paths [] s _ s1 Hs1) as [_ Hobjs].
  destruct (prepare_loop_trace E paths [] s) as [Hsent Hlog].
  rewrite Hs1 in Hsent, Hlog. done.
Qed.

Lemma prepare_files_opens_every_path_witness :
  fst (_prepare_files Worlds.E_office_500 ["a.pdf"; "./notes//b.DOCX"] Worlds.s_busy)
  = Returns
      [ {| field := "files"; filename := "a.pdf"; fileobj := 1;
           content_type := "application/pdf" |};
        {| field := "files"; filename := "b.DOCX"; fileobj := 2;
           content_type :=
             "application/vnd.openxmlformats-officedocument.wordprocessingml.document" |} ].
Proof.
  destruct (prepare_files_opens_every_path
              Worlds.E_office_500 ["a.pdf"; "./notes//b.DOCX"] Worlds.s_busy)
    as (s1 & Hs1 & _).
  - discriminate.
  - repeat constructor.
  - rewrite Hs1. reflexivity.
Defined.

(** X2. [_prepare_files] returns exactly when the list is not empty and
    every path names a readable regular file; in every other case it
    raises, and the exception is the one of the first path that is not
    such a file: [FileNotFoundError] when [Path.exists()] finds nothing,
    the [OSError] of [Path.exists()] when the test itself fails,
    [ValueError] for something that is no regular file, and the error of
    [open] for a file that cannot be opened. *)
Theorem prepare_files_returns_iff (E : env) (paths : list string) (s : state) :
  ((exists files s1, _prepare_files E paths s = (Returns files, s1))
   <-> paths <> [] /\ Forall (openable E) paths) /\
  (forall pre p post,
      paths = pre ++ p :: post ->
      Forall (openable E) pre -> ~ openable E p ->
      match fs E !! PurePath.Path p with
      | None =>
          fst (_prepare_files E paths s)
          = Raises (FileNotFoundError ("文件不存在: " +:+ PurePath.Path p))
      | Some (Unstatable errno) =>
          fst (_prepare_files E paths s) = Raises (OSError errno)
      | Some Directory =>
          fst (_prepare_files E paths s)
          = Raises (ValueError ("不是有效的文件: " +:+ PurePath.Path p))
      | Some (RegularFile _) =>
          exists m, fst (_prepare_files E paths s) = Raises (PermissionError m)
      end).
Proof.
  split; [apply prepare_files_spec |].
  intros pre p post -> Hpre Hp.
  rewrite prepare_files_loop by (now destruct pre).
  rewrite (prepare_loop_skip E pre Hpre), prepare_loop_step.
  unfold openable in Hp.
  destruct (fs E !! PurePath.Path p) as [[[] | | errno] |]; simpl; eauto.
  done.
Qed.

Lemma prepare_files_returns_iff_witness :
  fst (_prepare_files Worlds.E_office_500 ["a.pdf"; "toolong.pdf"] Worlds.s0)
  = Raises (OSError 36).
Proof.
  refine (proj2 (prepare_files_returns_iff Worlds.E_office_500
                   ["a.pdf"; "toolong.pdf"] Worlds.s0)
            ["a.pdf"] "toolong.pdf" [] eq_refl _ _).
  - repeat constructor.
  - discriminate.
Defined.

(** X3. When the first path that is not a readable regular file names
    something that exists but is no regular file, [_prepare_files] raises
    [ValueError] for it; [parse] then returns [None], sends nothing and
    logs the error in its last [except] clause. *)
Theorem parse_rejects_directory (E : env) (c : client)
    (pre post : list string) (p : string) (s : state) :
  Forall (openable E) pre ->
  fs E !! PurePath.Path p = Some Directory ->
  fst (_prepare_files E (pre ++ p :: post) s)
  = Raises (ValueError ("不是有效的文件: " +:+ PurePath.Path p)) /\
  fst (parse E c (pre ++ p :: post) s) = Returns PyNone /\
  sent (snd (parse E c (pre ++ p :: post) s)) = sent s /\
  log (snd (parse E c (pre ++ p :: post) s))
  = log s ++ [(ERROR, MsgException
                        (ValueError ("不是有效的文件: " +:+ PurePath.Path p)))].
Proof.
  intros Hpre Hp.
  assert (Hraise : fst (_prepare_files E (pre ++ p :: post) s)
                   = Raises (ValueError ("不是有效的文件: " +:+ PurePath.Path p))).
  { rewrite prepare_files_loop by (now destruct pre).
    now rewrite (prepare_loop_skip E pre Hpre), prepare_loop_step, Hp. }
  destruct (_prepare_files E (pre ++ p :: post) s) as [r s1] eqn:Hr.
  simpl in Hraise. subst r.
  destruct (parse_prepare_raises E c _ s s1 _ Hr) as (qs & _ & _ & ->).
  done.
Qed.

Lemma parse_rejects_directory_witness :
  log (snd (parse Worlds.E_office_500 Worlds.local_client
              ["a.pdf"; "notes/"; "missing.pdf"] Worlds.s0))
  = [(ERROR, MsgException (ValueError "不是有效的文件: notes"))].
Proof.
  refine (proj2 (proj2 (proj2
            (parse_rejects_directory Worlds.E_office_500 Worlds.local_client
               ["a.pdf"] ["missing.pdf"] "notes/" Worlds.s0 _ _)))).
  - repeat constructor.
  - reflexivity.
Defined.

(** *** What [parse] sends *)

(** X4. When the list is not empty and every path names a readable
    regular file, [parse] hands exactly one request to the HTTP library,
    whatever the answer is: a POST to the stored base URL carrying the
    entries of all the paths in order, the fifteen default form fields,
    the header [accept: application/json] and the client's timeout. *)
Theorem parse_sends_one_post (E : env) (o : option string) (t : Z)
    (paths : list string) (s : state) :
  paths <> [] ->
  Forall (openable E) paths ->
  sent (snd (parse E (init o t) paths s))
  = sent s ++
    [ {| method := POST;
         url := base_url (init o t);
         req_files := entries_from (length (file_objs s)) paths;
         req_data := DEFAULT_PARAMS;
         req_headers := [("accept", "application/json")];
         req_timeout := t |} ] /\
  length DEFAULT_PARAMS = 15%nat.
Proof.
  intros Hne Hall.
  destruct (prepare_loop_all_openable E paths Hall [] s) as [s1 Hs1].
  rewrite <- prepare_files_loop in Hs1 by done.
  destruct (parse_prepare_returns E (init o t) paths s s1 _ Hs1) as [_ ->].
  done.
Qed.

Lemma parse_sends_one_post_witness :
  map url (sent (snd (parse Worlds.E_office_slow
                        (init (Some "http://10.0.0.7:9000/file_parse") 30)
                        ["a.pdf"; "notes/b.DOCX"] Worlds.s0)))
  = ["http://10.0.0.7:9000/file_parse"].
Proof.
  destruct (parse_sends_one_post Worlds.E_office_slow
              (Some "http://10.0.0.7:9000/file_parse") 30
              ["a.pdf"; "notes/b.DOCX"] Worlds.s0) as [-> _].
  - discriminate.
  - repeat constructor.
  - reflexivity.
Defined.

(** X5. [parse] hands a request to the HTTP library exactly when the
    list is not empty and every path names a readable regular file; in
    every other case the list of requests made is left as it was. *)
Theorem parse_sends_iff_all_openable (E : env) (c : client)
    (paths : list string) (s : state) :
  (paths <> [] /\ Forall (openable E) paths ->
   exists files,
     sent (snd (parse E c paths s)) = sent s ++ [post_request c files]) /\
  (~ (paths <> [] /\ Forall (openable E) paths) ->
   sent (snd (parse E c paths s)) = sent s /\
   fst (parse E c paths s) = Returns PyNone).
Proof. exact (parse_sent E c paths s). Qed.

(** *** The file objects *)

(** X6. When the list is not empty and every path names a readable
    regular file, [parse] leaves the world with one more file object per
    path, in order, each closed by exactly one call of [.close()], and
    this for every answer or failure of the network. *)
Theorem parse_closes_every_opened_file (E : env) (c : client)
    (paths : list string) (s : state) :
  paths <> [] ->
  Forall (openable E) paths ->
  file_objs (snd (parse E c paths s))
  = file_objs s ++
    map (fun p => {| f_path := PurePath.Path p; closed := true;
                     close_calls := 1 |}) paths.
Proof.
  intros Hne Hall.
  destruct (proj2 (prepare_files_spec E paths s) (conj Hne Hall))
    as (files & s1 & Hp).
  rewrite (parse_closes_prepared_files E c paths s s1 files Hp).
  now rewrite map_map.
Qed.

Lemma parse_closes_every_opened_file_witness :
  file_objs (snd (parse Worlds.E_office_slow Worlds.local_client
                    ["a.pdf"; "notes/b.DOCX"] Worlds.s_busy))
  = [ {| f_path := "earlier.pdf"; closed := false; close_calls := 0 |};
      {| f_path := "a.pdf"; closed := true; close_calls := 1 |};
      {| f_path := "notes/b.DOCX"; closed := true; close_calls := 1 |} ].
Proof.
  rewrite (parse_closes_every_opened_file Worlds.E_office_slow
             Worlds.local_client ["a.pdf"; "notes/b.DOCX"] Worlds.s_busy).
  - reflexivity.
  - discriminate.
  - repeat constructor.
Defined.

(** X7. [parse] never touches a file object that was there before the
    call: the table of file objects it leaves starts with the table it
    found, whatever the paths and the network do. *)
Theorem parse_keeps_earlier_file_objects (E : env) (c : client)
    (paths : list string) (s : state) :
  file_objs s `prefix_of` file_objs (snd (parse E c paths s)).
Proof.
  destruct (_prepare_files E paths s) as [[files | e] s1] eqn:Hp.
  - rewrite (parse_closes_prepared_files E c paths s s1 files Hp).
    now apply prefix_app_r.
  - destruct (parse_prepare_raises E c paths s s1 e Hp) as (qs & _ & _ & ->).
    now apply prefix_app_r.
Qed.

(** *** [_close_files] *)






Lemma close_files_noop (E : env) (files : list upload_entry) (s : state) :
  (forall i f,
      i ∈ map fileobj files -> file_objs s !! i = Some f -> closed f = true) ->
  _close_files E files s = (Returns tt, s).
Proof.
  induction files as [| en rest IH]; intros Hclosed; [done |].
  simpl. unfold mbind, M_bind, close_entry.
  destruct (file_objs s !! fileobj en) as [f |] eqn:Hf.
  - rewrite (Hclosed (fileobj en) f) by (try apply elem_of_cons; auto).
    apply IH. intros i g Hin. apply Hclosed. simpl. apply elem_of_cons. auto.
  - apply IH. intros i g Hin. apply Hclosed. simpl. apply elem_of_cons. auto.
Qed.

(** X9. For the file objects that [open] makes, which are closed after
    [.close()] also when it raises, [_close_files] is idempotent: a
    second call on the same list finds every file object closed, calls
    [.close()] on none, logs nothing, and leaves the world as the first
    call left it. *)
Theorem close_files_twice (E : env) (files : list upload_entry) (s : state) :
  _close_files E files (snd (_close_files E files s))
  = (Returns tt, snd (_close_files E files s)).
Proof.
  apply close_files_noop. intros i f Hin. rewrite close_files_lookup.
  destruct (file_objs s !! i) as [g |]; simpl; [| discriminate].
  intros [= <-]. unfold closed_by. rewrite bool_decide_eq_true_2 by done.
  simpl. now destruct (closed g) eqn:Hg.
Qed.

End ClientFiles.

(** ** Facts on the string operations *)

Section PyStrFacts.
Import PyStr.

Lemma chars_str (l : list ascii) : chars (str l) = l.
Proof. apply list_ascii_of_string_of_list_ascii. Qed.

Lemma str_chars (s : string) : str (chars s) = s.
Proof. apply string_of_list_ascii_of_string. Qed.

Lemma str_app (a b : list ascii) : str (a ++ b)%list = str a +:+ str b.
Proof. induction a as [| x a IH]; simpl; [done | now rewrite IH]. Qed.

Lemma chars_app (a b : string) : chars (a +:+ b) = (chars a ++ chars b)%list.
Proof. induction a as [| x a IH]; simpl; [done | now rewrite IH]. Qed.

Lemma length_chars (s : string) : length (chars s) = String.length s.
Proof. induction s as [| x s IH]; simpl; [done | now rewrite IH]. Qed.

Lemma upto_from (s : string) (i : Z) : upto s i +:+ from s i = s.
Proof.
  unfold upto, from. rewrite <- str_app, take_drop. apply str_chars.
Qed.

Lemma upto_length (s : string) (i : Z) :
  (String.length (upto s i) <= Z.to_nat i)%nat.
Proof.
  unfold upto. rewrite <- length_chars, chars_str, length_take. lia.
Qed.

Lemma upto_all (s : string) (i : Z) :
  (String.length s <= Z.to_nat i)%nat -> upto s i = s.
Proof.
  intros H. unfold upto. rewrite take_ge by (rewrite length_chars; lia).
  apply str_chars.
Qed.

(** *** [rfind] *)

Lemma rfind_from_range (c : ascii) (l : list ascii) :
  forall i, 0 <= i ->
    rfind_from c l i = -1 \/
    (i <= rfind_from c l i < i + Z.of_nat (length l)).
Proof.
  induction l as [| x r IH]; intros i Hi; simpl; [now left |].
  destruct (IH (i + 1) ltac:(lia)) as [Hl | Hl].
  - rewrite Hl. simpl. destruct (Ascii.eqb x c); [right; lia | now left].
  - destruct (Z.leb_spec 0 (rfind_from c r (i + 1))); [right; lia | lia].
Qed.

Lemma rfind_from_absent (c : ascii) (l : list ascii) :
  forall i, c ∉ l -> rfind_from c l i = -1.
Proof.
  induction l as [| x r IH]; intros i Hc; simpl; [done |].
  apply not_elem_of_cons in Hc as [Hx Hr]. rewrite (IH (i + 1) Hr). simpl.
  destruct (Ascii.eqb_spec x c); [congruence | done].
Qed.

Lemma rfind_from_none (c : ascii) (l : list ascii) :
  forall i, 0 <= i -> rfind_from c l i = -1 -> c ∉ l.
Proof.
  induction l as [| x r IH]; intros i Hi; simpl; [intros _; apply not_elem_of_nil |].
  destruct (rfind_from_range c r (i + 1) ltac:(lia)) as [Hl | Hl].
  - rewrite Hl. simpl. destruct (Ascii.eqb_spec x c); [lia |].
    intros _. apply not_elem_of_cons. split; [congruence |].
    now apply (IH (i + 1) ltac:(lia)).
  - destruct (Z.leb_spec 0 (rfind_from c r (i + 1))); lia.
Qed.

Lemma rfind_from_app_absent (c : ascii) (l1 l2 : list ascii) :
  forall i, c ∉ l2 ->
    rfind_from c (l1 ++ l2)%list i = rfind_from c l1 i.
Proof.
  induction l1 as [| x r IH]; intros i Hc; simpl.
  - now apply rfind_from_absent.
  - now rewrite (IH (i + 1) Hc).
Qed.

(** Nothing after the index found is the character looked for, and the
    character stands at the index found. *)
Lemma rfind_from_last (c : ascii) (l : list ascii) :
  forall i, 0 <= i ->
    (c ∉ drop (Z.to_nat (rfind_from c l i - i + 1)) l) /\
    (0 <= rfind_from c l i ->
     l !! Z.to_nat (rfind_from c l i - i) = Some c).
Proof.
  induction l as [| x r IH]; intros i Hi.
  - simpl. rewrite drop_nil. split; [apply not_elem_of_nil | lia].
  - destruct (IH (i + 1) ltac:(lia)) as [IHd IHc].
    destruct (rfind_from_range c r (i + 1) ltac:(lia)) as [Hl | Hl]; simpl.
    + rewrite Hl in *. simpl.
      pose proof (rfind_from_none c r (i + 1) ltac:(lia) Hl) as Hr.
      destruct (Ascii.eqb_spec x c) as [-> | Hx].
      * replace (i - i + 1) with 1 by lia. replace (i - i) with 0 by lia.
        simpl. done.
      * replace (Z.to_nat (-1 - i + 1)) with 0%nat by lia. simpl.
        split; [| lia]. apply not_elem_of_cons. done.
    + destruct (Z.leb_spec 0 (rfind_from c r (i + 1))); [| lia].
      replace (Z.to_nat (rfind_from c r (i + 1) - i + 1))
        with (S (Z.to_nat (rfind_from c r (i + 1) - (i + 1) + 1))) by lia.
      replace (Z.to_nat (rfind_from c r (i + 1) - i))
        with (S (Z.to_nat (rfind_from c r (i + 1) - (i + 1)))) by lia.
      simpl. split; [done | intros _; apply IHc; lia].
Qed.

Lemma rfind_range (c : ascii) (s : string) :
  rfind c s = -1 \/ (0 <= rfind c s < Z.of_nat (length (chars s))).
Proof. apply (rfind_from_range c (chars s) 0). lia. Qed.

Lemma rfind_last (c : ascii) (s : string) :
  c ∉ drop (Z.to_nat (rfind c s + 1)) (chars s).
Proof.
  pose proof (rfind_from_last c (chars s) 0 ltac:(lia)) as [H _].
  unfold rfind. now replace (rfind_from c (chars s) 0 - 0 + 1)
    with (rfind_from c (chars s) 0 + 1) in H by lia.
Qed.

Lemma rfind_at (c : ascii) (s : string) :
  0 <= rfind c s -> chars s !! Z.to_nat (rfind c s) = Some c.
Proof.
  intros H0. pose proof (rfind_from_last c (chars s) 0 ltac:(lia)) as [_ H].
  unfold rfind in *. replace (rfind_from c (chars s) 0 - 0)
    with (rfind_from c (chars s) 0) in H by lia. now apply H.
Qed.

(** *** Characters *)







End PyStrFacts.

(** ** What [parse] logs *)

Section ClientLog.
Import PyStr Minueru.
#[local] Open Scope list_scope.

Lemma close_warnings_levels (E : env) (paths : list string) :
  Forall (fun lm => fst lm = WARNING) (close_warnings E paths).
Proof.
  unfold close_warnings. induction paths as [| p rest IH]; simpl; [done |].
  apply Forall_app. split; [| done].
  unfold close_warning. now destruct (close_error E _); repeat constructor.
Qed.

Lemma error_among_warnings (E : env) (paths : list string)
    (l : list (level * message)) :
  (exists m, (ERROR, m) ∈ l ++ close_warnings E paths)
  <-> exists m, (ERROR, m) ∈ l.
Proof.
  split; intros [m Hm]; exists m.
  - apply elem_of_app in Hm as [Hm | Hm]; [done |].
    pose proof (close_warnings_levels E paths) as Hw.
    rewrite Forall_forall in Hw. apply Hw in Hm. discriminate Hm.
  - apply elem_of_app. now left.
Qed.







(** X13. No failure of [parse] is silent.  Every call adds entries to
    the log, and one of them has level [ERROR] exactly when the call did
    not end with the decoded body of a 200 response. *)
Theorem parse_logs_error_iff_failed (E : env) (c : client)
    (paths : list string) (s : state) :
  exists new,
    log (snd (parse E c paths s)) = log s ++ new /\
    new <> [] /\
    ((exists m, (ERROR, m) ∈ new) <->
     ~ (exists files s1 r v,
           _prepare_files E paths s = (Returns files, s1) /\
           network E (post_request c files) = Returns r /\
           status_code r = 200 /\ json r = Returns v)).
Proof.
  destruct (_prepare_files E paths s) as [[files | e] s1] eqn:Hp.
  - pose proof (parse_log_after_prepare E c paths s s1 files Hp) as Hlog.
    eexists. split; [exact Hlog |]. split; [done |].
    rewrite app_comm_cons, error_among_warnings.
    destruct (network E (post_request c files)) as [r | e] eqn:Hnet.
    + destruct (Z.eqb_spec (status_code r) 200) as [Hst | Hst].
      * destruct (json r) as [v | e] eqn:Hj.
        -- split.
           ++ intros (m & Hm). exfalso.
              repeat (apply elem_of_cons in Hm as [Hm | Hm];
                      [discriminate Hm |]).
              inversion Hm.
           ++ intros Hno. exfalso. apply Hno. exists files, s1, r, v. done.
        -- split.
           ++ intros _ (files' & s1' & r' & v & Hp' & Hnet' & _ & Hj').
              injection Hp' as <- <-. rewrite Hnet in Hnet'.
              injection Hnet' as <-. congruence.
           ++ intros _. destruct (is_JSONDecodeError e); eexists;
                do 2 apply list_elem_of_further; apply list_elem_of_here.
      * split.
        -- intros _ (files' & s1' & r' & v & Hp' & Hnet' & Hst' & _).
           injection Hp' as <- <-. rewrite Hnet in Hnet'.
           injection Hnet' as <-. done.
        -- intros _. eexists.
           do 2 apply list_elem_of_further; apply list_elem_of_here.
    + split.
      * intros _ (files' & s1' & r' & v & Hp' & Hnet' & _).
        injection Hp' as <- <-. congruence.
      * intros _. eexists. apply list_elem_of_further, list_elem_of_here.
  - destruct (parse_prepare_raises E c paths s s1 e Hp) as (qs & _ & _ & ->).
    simpl. eexists. split; [reflexivity |]. split; [done |]. split.
    + intros _ (files & s1' & r & v & Hp' & _). discriminate Hp'.
    + intros _. eexists. apply list_elem_of_here.
Qed.

End ClientLog.

(** ** The paths of the converter helper *)

Section ConverterPaths.
Import PyStr OsPath DocUtils.

Ltac not_in_literal :=
  let H := fresh in
  intros H; simpl in H;
  repeat (apply elem_of_cons in H as [H | H]; [discriminate H |]);
  inversion H.

Lemma no_sep_in_docx : ("/" : ascii) ∉ chars ".docx".
Proof. not_in_literal. Qed.

Lemma not_in_drop_more (c : ascii) (l : list ascii) (n m : nat) :
  (n <= m)%nat -> c ∉ drop n l -> c ∉ drop m l.
Proof.
  intros Hnm Hc Hin. apply Hc.
  replace m with (n + (m - n))%nat in Hin by lia.
  rewrite <- drop_drop in Hin. revert Hin. apply subseteq_drop.
Qed.

(** With the extension split off at [dotIndex]: the dot stands there,
    after the last separator. *)
Lemma splitext_split (p : string) :
  splitext p = (p, "") \/
  (splitext p = (upto p (rfind "." p), from p (rfind "." p)) /\
   rfind "/" p < rfind "." p /\ 0 <= rfind "." p).
Proof.
  unfold splitext.
  destruct (Z.ltb_spec (rfind "/" p) (rfind "." p)) as [Hlt | Hge]; simpl;
    [| now left].
  destruct (finds_non_dot _); [| now left]. right.
  split; [done |]. split; [done |].
  destruct (rfind_range "/" p); lia.
Qed.

Lemma rfind_from_app_hit (c : ascii) (l1 l2 : list ascii) :
  forall i, 0 <= i -> c ∉ l2 ->
    rfind_from c (l1 ++ c :: l2)%list i = i + Z.of_nat (length l1).
Proof.
  induction l1 as [| x r IH]; intros i Hi Hc; simpl.
  - rewrite (rfind_from_absent c l2 (i + 1) Hc). simpl.
    rewrite Ascii.eqb_refl. lia.
  - rewrite (IH (i + 1) ltac:(lia) Hc).
    destruct (Z.leb_spec 0 (i + 1 + Z.of_nat (length r))); lia.
Qed.

Lemma finds_non_dot_true (l : list ascii) :
  finds_non_dot l = true <-> exists j ch, l !! j = Some ch /\ ch <> "."%char.
Proof.
  induction l as [| x r IH]; simpl.
  - split; [discriminate | intros (j & ch & H & _); discriminate H].
  - destruct (Ascii.eqb_spec x ".") as [-> | Hx].
    + rewrite IH. split.
      * intros (j & ch & Hj & Hch). exists (S j), ch. done.
      * intros ([| j] & ch & Hj & Hch); simpl in Hj; [congruence | eauto].
    + split; [| done]. intros _. exists 0%nat, x. done.
Qed.

(** X14. The derived output path replaces the extension by [.docx].  For
    an input that ends in a dot and characters without dot or
    separator, after a last component that is not made of dots only,
    the output is the part before that dot followed by [.docx].  For an
    input whose last component has no dot after its leading dots, there
    is no extension and [.docx] is appended to the whole path. *)
Theorem output_docx_path_replaces_extension (p : string) :
  (forall stem e,
      p = stem +:+ String "." e ->
      ("." : ascii) ∉ chars e -> ("/" : ascii) ∉ chars e ->
      (exists ch, ch ∈ chars (OsPath.basename stem) /\ ch <> "."%char) ->
      output_docx_path p = stem +:+ ".docx") /\
  (forall n w,
      chars (OsPath.basename p) = (replicate n ("." : ascii) ++ w)%list ->
      ("." : ascii) ∉ w ->
      output_docx_path p = p +:+ ".docx").
Proof.
  split.
  - intros stem e -> Hdot Hsep (ch & Hch & Hne).
    assert (Hd : rfind "." (stem +:+ String "." e)
                 = Z.of_nat (length (chars stem))).
    { unfold rfind. rewrite chars_app. simpl.
      rewrite (rfind_from_app_hit "." (chars stem) (chars e) 0) by (lia || done).
      lia. }
    assert (Hs : rfind "/" (stem +:+ String "." e) = rfind "/" stem).
    { unfold rfind. rewrite chars_app. apply rfind_from_app_absent.
      simpl. apply not_elem_of_cons. split; [discriminate | done]. }
    assert (Hup : upto (stem +:+ String "." e)
                    (Z.of_nat (length (chars stem))) = stem).
    { unfold upto. rewrite chars_app, Nat2Z.id, take_app_length.
      apply str_chars. }
    unfold output_docx_path, splitext. cbv zeta. rewrite Hd, Hs.
    assert (Hlt : rfind "/" stem < Z.of_nat (length (chars stem))).
    { destruct (rfind_range "/" stem); lia. }
    destruct (Z.ltb_spec (rfind "/" stem) (Z.of_nat (length (chars stem))));
      [| lia].
    unfold slice. rewrite Hup.
    change (from stem (rfind "/" stem + 1)) with (OsPath.basename stem).
    assert (Hfind : finds_non_dot (chars (OsPath.basename stem)) = true).
    { apply finds_non_dot_true. apply list_elem_of_lookup in Hch as [j Hj].
      eauto. }
    now rewrite Hfind.
  - intros n w Hbase Hw.
    unfold output_docx_path.
    destruct (splitext_split p) as [-> | (Hsplit & Hlt & Hdot)]; [done |].
    exfalso.
    unfold splitext in Hsplit. cbv zeta in Hsplit.
    destruct (Z.ltb_spec (rfind "/" p) (rfind "." p)); [| lia].
    destruct (finds_non_dot (chars (slice p (rfind "/" p + 1) (rfind "." p))))
      eqn:Hfind.
    2:{ simpl in Hsplit. injection Hsplit as Hp _.
        assert (Hlen : length (chars (upto p (rfind "." p)))
                       = length (chars p)) by now rewrite <- Hp.
        unfold upto in Hlen. rewrite chars_str, length_take in Hlen.
        pose proof (rfind_at "." p Hdot) as Hat.
        apply lookup_lt_Some in Hat. lia. }
    apply finds_non_dot_true in Hfind as (j & ch & Hj & Hne).
    unfold slice, from, upto in Hj. rewrite !chars_str in Hj.
    rewrite lookup_drop in Hj. apply lookup_take_Some in Hj as [Hj Hjd].
    unfold OsPath.basename, from in Hbase. rewrite chars_str in Hbase.
    set (a := Z.to_nat (rfind "/" p + 1)) in *.
    assert (Hbj : (replicate n ("." : ascii) ++ w)%list !! j = Some ch).
    { now rewrite <- Hbase, lookup_drop. }
    assert (Hjn : (n <= j)%nat).
    { destruct (decide (n <= j)%nat) as [| Hlt']; [done |].
      rewrite lookup_app_l in Hbj by (rewrite length_replicate; lia).
      apply lookup_replicate in Hbj as [-> _]. done. }
    pose proof (rfind_at "." p Hdot) as Hat.
    assert (Hbd : (replicate n ("." : ascii) ++ w)%list
                  !! (Z.to_nat (rfind "." p) - a)%nat = Some ("." : ascii)).
    { rewrite <- Hbase, lookup_drop. rewrite <- Hat. f_equal. lia. }
    rewrite lookup_app_r in Hbd by (rewrite length_replicate; lia).
    apply Hw. eapply list_elem_of_lookup_2, Hbd.
Qed.

Lemma output_docx_path_replaces_extension_witness :
  output_docx_path "docs/report.final.doc" = "docs/report.final.docx" /\
  output_docx_path "docs.v1/..notes" = "docs.v1/..notes.docx".
Proof.
  destruct (output_docx_path_replaces_extension "docs/report.final.doc")
    as [Hext _].
  destruct (output_docx_path_replaces_extension "docs.v1/..notes")
    as [_ Hnone].
  split.
  - apply (Hext "docs/report.final" "doc"); [reflexivity | | |].
    + not_in_literal.
    + not_in_literal.
    + exists "r"%char. split; [| discriminate].
      apply list_elem_of_here.
  - apply (Hnone 2%nat (chars "notes")); [reflexivity |]. not_in_literal.
Defined.

Lemma stem_keeps_directory (p stem : string) :
  stem = p \/
  (stem = upto p (rfind "." p) /\ rfind "/" p < rfind "." p /\
   0 <= rfind "." p) ->
  rfind "/" (stem +:+ ".docx") = rfind "/" p /\
  upto (stem +:+ ".docx") (rfind "/" p + 1) = upto p (rfind "/" p + 1).
Proof.
  intros Hstem. unfold rfind at 1. unfold upto at 1. rewrite chars_app.
  rewrite (rfind_from_app_absent _ _ _ 0 no_sep_in_docx).
  destruct Hstem as [-> | (-> & Hlt & Hdot)].
  - split; [done |]. unfold upto. f_equal. apply take_app_le.
    destruct (rfind_range "/" p); lia.
  - unfold upto at 1 2. rewrite chars_str.
    assert (Hnone : ("/" : ascii) ∉ drop (Z.to_nat (rfind "." p)) (chars p)).
    { apply (not_in_drop_more _ _ (Z.to_nat (rfind "/" p + 1))); [lia |].
      apply rfind_last. }
    assert (Hlen : (Z.to_nat (rfind "." p) <= length (chars p))%nat).
    { destruct (rfind_range "." p); lia. }
    split.
    + rewrite <- (rfind_from_app_absent _ _ _ 0 Hnone), take_drop. done.
    + unfold upto. f_equal.
      rewrite take_app_le by (rewrite length_take; lia).
      rewrite take_take. f_equal. lia.
Qed.

Lemma output_keeps_directory (p : string) :
  rfind "/" (output_docx_path p) = rfind "/" p /\
  upto (output_docx_path p) (rfind "/" p + 1) = upto p (rfind "/" p + 1).
Proof.
  unfold output_docx_path.
  destruct (splitext_split p) as [-> | (-> & Hlt & Hdot)]; simpl;
    apply stem_keeps_directory; [now left | now right].
Qed.

(** X15. The directory of the derived output path is the directory of
    the input, so the command tells [soffice] to write next to the
    input: its [--outdir] argument is [os.path.dirname] of the input
    path. *)
Theorem command_writes_next_to_input (p : string) :
  OsPath.dirname (output_docx_path p) = OsPath.dirname p /\
  command p
  = [ "soffice"; "--headless"; "--convert-to"; "docx"; p;
      "--outdir"; OsPath.dirname p ].
Proof.
  assert (H : OsPath.dirname (output_docx_path p) = OsPath.dirname p).
  { destruct (output_keeps_directory p) as [Hsep Hhead].
    unfold OsPath.dirname. now rewrite Hsep, Hhead. }
  split; [exact H |]. unfold command. now rewrite H.
Qed.

Lemma output_without_separator (p : string) :
  ("/" : ascii) ∉ chars p -> ("/" : ascii) ∉ chars (output_docx_path p).
Proof.
  intros Hp. unfold output_docx_path.
  assert (Hstem : ("/" : ascii) ∉ chars (fst (splitext p))).
  { destruct (splitext_split p) as [-> | (-> & _)]; simpl; [done |].
    unfold upto. rewrite chars_str. intros Hin. apply Hp.
    revert Hin. apply subseteq_take. }
  rewrite chars_app. intros Hin. apply elem_of_app in Hin as [Hin | Hin];
    [done | now apply no_sep_in_docx].
Qed.

(** X16. For an input path without a separator, that is a file of the
    current directory, a run of [soffice] that exits with status 0 makes
    the function return exactly the derived output path, the input with
    its extension replaced by [.docx]. *)
Theorem convert_bare_name (E : env) (p err : string) :
  ("/" : ascii) ∉ chars p ->
  run E (command p) = Exited 0 err ->
  generated_file p = output_docx_path p /\
  fst (convert_doc_to_docx E p) = Returns (Some (output_docx_path p)).
Proof.
  intros Hp Hrun.
  assert (Hg : generated_file p = output_docx_path p).
  { pose proof (output_without_separator p Hp) as Hout.
    unfold generated_file, OsPath.dirname, OsPath.basename.
    unfold rfind. rewrite (rfind_from_absent _ _ 0 Hout). simpl.
    unfold from, upto. simpl.
    change (Z.to_nat (-1 + 1)) with 0%nat. rewrite drop_0, str_chars.
    unfold OsPath.join. now destruct (startswith "/" (output_docx_path p)). }
  split; [exact Hg |]. rewrite <- Hg. exact (convert_exit_zero E p err Hrun).
Qed.

Lemma convert_bare_name_witness :
  fst (convert_doc_to_docx Worlds.soffice_ok "annual.report.DOC")
  = Returns (Some "annual.report.docx").
Proof.
  refine (proj2 (convert_bare_name Worlds.soffice_ok "annual.report.DOC" ""
                   _ eq_refl)).
  not_in_literal.
Defined.

End ConverterPaths.


(** ** The address of the connection test *)

Section ConnectionUrl.
Import PyStr Minueru.
#[local] Open Scope list_scope.

Lemma replace_chars_skip (old new : list ascii) (r t : list ascii) :
  replace_chars old new (length r) (r ++ t) = replace_chars old new 0 t.
Proof.
  induction r as [| y r IH]; simpl; [| exact IH].
  destruct t; reflexivity.
Qed.

Lemma replace_chars_here (old new t : list ascii) :
  old <> [] ->
  replace_chars old new 0 (old ++ t) = new ++ replace_chars old new 0 t.
Proof.
  destruct old as [| x r]; [done |]. intros _.
  change ((x :: r) ++ t) with (x :: (r ++ t)).
  cbn [replace_chars].
  rewrite bool_decide_eq_true_2 by (now apply (prefix_app_r (x :: r) (x :: r) t)).
  simpl. now rewrite replace_chars_skip.
Qed.

Lemma replace_chars_not_here (old new : list ascii) (x : ascii)
    (t : list ascii) :
  ~ old `prefix_of` (x :: t) ->
  replace_chars old new 0 (x :: t) = x :: replace_chars old new 0 t.
Proof.
  intros H. cbn [replace_chars]. now rewrite bool_decide_eq_false_2.
Qed.

Lemma replace_chars_suffix (old new : list ascii) (u : list ascii) :
  old <> [] ->
  (forall k, (k < length u)%nat -> ~ old `prefix_of` drop k (u ++ old)) ->
  replace_chars old new 0 (u ++ old) = u ++ new.
Proof.
  intros Hold. induction u as [| y u IH]; intros Hno.
  - simpl. rewrite <- (app_nil_r old) at 2.
    rewrite replace_chars_here by done. simpl.
    now destruct old; rewrite ?app_nil_r.
  - change ((y :: u) ++ old) with (y :: (u ++ old)).
    rewrite replace_chars_not_here by (apply (Hno 0%nat); simpl; lia).
    simpl. f_equal. apply IH. intros k Hk. apply (Hno (S k)). simpl. lia.
Qed.

Lemma replace_chars_absent (old new : list ascii) (l : list ascii) :
  (forall k, ~ old `prefix_of` drop k l) ->
  replace_chars old new 0 l = l.
Proof.
  induction l as [| y l IH]; intros Hno; [done |].
  rewrite replace_chars_not_here by (apply (Hno 0%nat)).
  f_equal. apply IH. intros k. apply (Hno (S k)).
Qed.

(** X17. When the base URL ends in ['/file_parse'] and the text does not
    occur earlier in it, [test_connection] asks for the base URL without
    that ending; when the text does not occur in the base URL at all,
    it asks for the base URL itself. *)
Theorem connection_url_strips_ending (E : env) (c : client) (s : state) :
  (forall u,
      base_url c = u +:+ "/file_parse" ->
      (forall k, (k < String.length u)%nat ->
                 ~ occurs_at "/file_parse" (base_url c) k) ->
      map url (sent (snd (test_connection E c s))) = map url (sent s) ++ [u]) /\
  ((forall k, ~ occurs_at "/file_parse" (base_url c) k) ->
   map url (sent (snd (test_connection E c s)))
   = map url (sent s) ++ [base_url c]).
Proof.
  assert (Hsent : sent (snd (test_connection E c s))
                  = sent s ++ [connection_request c]).
  { unfold test_connection, http.
    now destruct (network E (connection_request c)). }
  rewrite Hsent, map_app. simpl. unfold replace. split.
  - intros u Hu Hno. do 2 f_equal. unfold occurs_at in Hno.
    rewrite Hu in *. rewrite chars_app in *.
    rewrite replace_chars_suffix; [now rewrite app_nil_r, str_chars | done |].
    intros k Hk. apply Hno. now rewrite <- length_chars.
  - intros Hno. do 2 f_equal.
    rewrite replace_chars_absent by exact Hno. apply str_chars.
Qed.

Lemma connection_url_strips_ending_witness :
  map url (sent (snd (test_connection Worlds.E_down
                        (init (Some "http://h:1/file_parse") 5) Worlds.s0)))
  = ["http://h:1"].
Proof.
  refine (proj1 (connection_url_strips_ending Worlds.E_down
                   (init (Some "http://h:1/file_parse") 5) Worlds.s0)
            "http://h:1" eq_refl _).
  intros k Hk. unfold occurs_at.
  do 10 (destruct k as [| k];
         [apply (bool_decide_eq_false_1 _); reflexivity |]).
  simpl in Hk. lia.
Defined.

End ConnectionUrl.
